(** * NavigationStateManager

    A shallow embedding of
    [packages/router/src/statemanager/navigation_state_manager.ts]: the router
    state manager that drives the platform Navigation API.

    The class is modelled by explicit state passing.  The mutable fields of the
    manager form the record [NavigationStateManager]; every method takes the
    manager and returns the updated manager together with the list of calls it
    made on its collaborators (the native navigation object, the navigate
    event, the callbacks stored on the transition and the subscribed
    listeners), in program order.  [Navigation] objects (the router's
    transitions) are shared and mutated through references, so they live in a
    store indexed by reference. *)

From Stdlib Require Import String List Bool.
From stdpp Require Import base option list gmap.
Import ListNotations.

Local Open Scope string_scope.
Local Open Scope list_scope.

(** ** JavaScript values used by the manager *)

(** Truthiness of an optional boolean property ([undefined], [false], [true]). *)
Definition truthy (b : option bool) : bool :=
  match b with
  | Some true => true
  | _ => false
  end.

(** ['after-transition' | 'manual'], the type of [focusReset] and [scroll]. *)
Inductive Behavior := AfterTransition | Manual.

(** The [history] option of [navigation.navigate]. *)
Inductive History := Push | Replace.

(** A reference to a [Navigation] object of the transition pipeline. *)
Definition TransitionRef := nat.

(** [interface NavigationInfo]; every field is optional. *)
Record NavigationInfo := {
  intercept : option bool;
  focusReset : option Behavior;
  scroll : option Behavior;
  deferredCommit : option bool;
  transition : option TransitionRef;
  rollback : option bool;
}.

(** The [info] of a native navigation is an arbitrary JavaScript value; the
    source casts it to [NavigationInfo | undefined] without a check.  The
    values that reach the manager are [undefined], the objects built by
    [navigate] and the string passed by [cancel]. *)
Inductive JsInfo :=
| InfoUndefined
| InfoString (s : string)
| InfoObject (i : NavigationInfo).

(** [!!info]: [undefined] and the empty string are falsy, every other string
    and every object is truthy. *)
Definition info_truthy (i : JsInfo) : bool :=
  match i with
  | InfoUndefined => false
  | InfoString s => negb (String.eqb s "")
  | InfoObject _ => true
  end.

(** Reading an optional property [info?.p] (and [info.p] on a truthy [info]):
    a string primitive has none of the properties of [NavigationInfo]. *)
Definition info_prop {A} (p : NavigationInfo -> option A) (i : JsInfo) : option A :=
  match i with
  | InfoObject o => p o
  | _ => None
  end.

(** The functions stored in [finish], [cancel] and [commitUrl] of a transition:
    the [resolve] and [reject] of the promise made by the intercept handler of
    navigate event [ev], the closure [() => event.commit()] over navigate
    event [ev], or a function installed by the transition pipeline. *)
Inductive Callback :=
| ResolveHandler (ev : nat)
| RejectHandler (ev : nat)
| CommitEvent (ev : nat)
| PipelineCallback (n : nat).

(** The closure passed as [handler] to [event.intercept]: when the platform
    runs it, it stores [resolve] and [reject] on [info.transition]. *)
Inductive Handler :=
| BindFinishCancel (t : option TransitionRef).

(** [NavigationInterceptOptions], with the [commit] property the source adds. *)
Record InterceptOptions := {
  io_focusReset : option Behavior;
  io_scroll : option Behavior;
  io_commit : option Behavior;
  io_handler : Handler;
}.

Section Manager.

(** Types owned by collaborators: parsed URLs, router state trees and the
    values stored in a history entry's state object. *)
Context {UrlTree RouterState JsValue : Type}.

(** A state payload: a JavaScript object seen as its list of properties. *)
Definition Payload := list (string * JsValue).

(** [NavigationHistoryEntry]: [id], [key], [url] and the result of
    [getState()]. *)
Record NavigationHistoryEntry := {
  entry_id : string;
  entry_key : string;
  entry_url : string;
  entry_getState : option Payload;
}.

(** [transition.extras], restricted to the properties the manager reads.  The
    two flags are only tested for truthiness, so [undefined] is [false]. *)
Record NavigationExtras := {
  skipLocationChange : bool;
  replaceUrl : bool;
  state : option Payload;
}.

(** [interface Navigation], restricted to the properties the manager uses. *)
Record Navigation := {
  initialUrl : UrlTree;
  finalUrl : option UrlTree;
  extras : NavigationExtras;
  nav_finish : option Callback;
  nav_cancel : option Callback;
  nav_commitUrl : option Callback;
}.

(** [NavigateEvent]: the identity of the event object, its [info] and
    [canIntercept]. *)
Record NavigateEvent := {
  event_id : nat;
  event_info : JsInfo;
  canIntercept : bool;
}.

(** Options of [navigation.navigate]. *)
Record NavigateOptions := {
  opt_state : option Payload;
  opt_history : History;
  opt_info : JsInfo;
}.

(** Calls the manager makes on its collaborators. *)
Inductive Effect :=
| Navigation_navigate (path : string) (o : NavigateOptions)
| Navigation_traverseTo (key : string) (i : JsInfo)
| Navigation_addEventListener (type : string)
| Call (cb : Callback)
| Event_intercept (ev : nat) (o : InterceptOptions)
| Listener (l : nat) (url : string) (st : option Payload).

(** The object returned by [createStateMemento]. *)
Record StateMemento := {
  memento_rawUrlTree : UrlTree;
  memento_currentUrlTree : UrlTree;
  memento_routerState : RouterState;
}.

(** The mutable fields of the class.  [nonRouterCurrentEntryChangeSubject] is
    the list of subscribed listeners, in subscription order. *)
Record NavigationStateManager := {
  canceledNavigationResolution : string;
  urlUpdateStrategy : string;
  currentUrlTree : UrlTree;
  rawUrlTree : UrlTree;
  activeHistoryEntry : NavigationHistoryEntry;
  routerState : RouterState;
  stateMemento : StateMemento;
  nonRouterCurrentEntryChangeSubject : list nat;
  info : JsInfo;
}.

(** What a method reads from the injected [PlatformNavigation] and [Location]
    while it runs: [navigation.currentEntry!] and
    [location.isCurrentPathEqualTo]. *)
Record Host := {
  navigation_currentEntry : NavigationHistoryEntry;
  location_isCurrentPathEqualTo : string -> bool;
}.

(** The injected [UrlSerializer] and [UrlHandlingStrategy]. *)
Variable serialize : UrlTree -> string.
Variable merge : UrlTree -> UrlTree -> UrlTree.

(** ** Field updates *)

Definition set_rawUrlTree (u : UrlTree) (this : NavigationStateManager) :=
  {| canceledNavigationResolution := canceledNavigationResolution this;
     urlUpdateStrategy := urlUpdateStrategy this;
     currentUrlTree := currentUrlTree this;
     rawUrlTree := u;
     activeHistoryEntry := activeHistoryEntry this;
     routerState := routerState this;
     stateMemento := stateMemento this;
     nonRouterCurrentEntryChangeSubject := nonRouterCurrentEntryChangeSubject this;
     info := info this |}.

Definition set_currentUrlTree (u : UrlTree) (this : NavigationStateManager) :=
  {| canceledNavigationResolution := canceledNavigationResolution this;
     urlUpdateStrategy := urlUpdateStrategy this;
     currentUrlTree := u;
     rawUrlTree := rawUrlTree this;
     activeHistoryEntry := activeHistoryEntry this;
     routerState := routerState this;
     stateMemento := stateMemento this;
     nonRouterCurrentEntryChangeSubject := nonRouterCurrentEntryChangeSubject this;
     info := info this |}.

Definition set_routerState (r : RouterState) (this : NavigationStateManager) :=
  {| canceledNavigationResolution := canceledNavigationResolution this;
     urlUpdateStrategy := urlUpdateStrategy this;
     currentUrlTree := currentUrlTree this;
     rawUrlTree := rawUrlTree this;
     activeHistoryEntry := activeHistoryEntry this;
     routerState := r;
     stateMemento := stateMemento this;
     nonRouterCurrentEntryChangeSubject := nonRouterCurrentEntryChangeSubject this;
     info := info this |}.

Definition set_activeHistoryEntry (e : NavigationHistoryEntry)
    (this : NavigationStateManager) :=
  {| canceledNavigationResolution := canceledNavigationResolution this;
     urlUpdateStrategy := urlUpdateStrategy this;
     currentUrlTree := currentUrlTree this;
     rawUrlTree := rawUrlTree this;
     activeHistoryEntry := e;
     routerState := routerState this;
     stateMemento := stateMemento this;
     nonRouterCurrentEntryChangeSubject := nonRouterCurrentEntryChangeSubject this;
     info := info this |}.

Definition set_stateMemento (m : StateMemento) (this : NavigationStateManager) :=
  {| canceledNavigationResolution := canceledNavigationResolution this;
     urlUpdateStrategy := urlUpdateStrategy this;
     currentUrlTree := currentUrlTree this;
     rawUrlTree := rawUrlTree this;
     activeHistoryEntry := activeHistoryEntry this;
     routerState := routerState this;
     stateMemento := m;
     nonRouterCurrentEntryChangeSubject := nonRouterCurrentEntryChangeSubject this;
     info := info this |}.

Definition set_subscribers (l : list nat) (this : NavigationStateManager) :=
  {| canceledNavigationResolution := canceledNavigationResolution this;
     urlUpdateStrategy := urlUpdateStrategy this;
     currentUrlTree := currentUrlTree this;
     rawUrlTree := rawUrlTree this;
     activeHistoryEntry := activeHistoryEntry this;
     routerState := routerState this;
     stateMemento := stateMemento this;
     nonRouterCurrentEntryChangeSubject := l;
     info := info this |}.

Definition set_info (i : JsInfo) (this : NavigationStateManager) :=
  {| canceledNavigationResolution := canceledNavigationResolution this;
     urlUpdateStrategy := urlUpdateStrategy this;
     currentUrlTree := currentUrlTree this;
     rawUrlTree := rawUrlTree this;
     activeHistoryEntry := activeHistoryEntry this;
     routerState := routerState this;
     stateMemento := stateMemento this;
     nonRouterCurrentEntryChangeSubject := nonRouterCurrentEntryChangeSubject this;
     info := i |}.

(** ** Accessors *)

Definition getCurrentUrlTree (this : NavigationStateManager) : UrlTree :=
  currentUrlTree this.

Definition getRawUrlTree (this : NavigationStateManager) : UrlTree :=
  rawUrlTree this.

Definition getRouterState (this : NavigationStateManager) : RouterState :=
  routerState this.

Definition restoredState (h : Host) : option Payload :=
  entry_getState (navigation_currentEntry h).

(** ** The memento *)

Definition createStateMemento (this : NavigationStateManager) : StateMemento :=
  {| memento_rawUrlTree := rawUrlTree this;
     memento_currentUrlTree := currentUrlTree this;
     memento_routerState := routerState this |}.

(** [navigation.finalUrl ?? this.rawUrlTree] is evaluated after
    [currentUrlTree] has been restored and before [rawUrlTree] is written. *)
Definition resetInternalState (navigation : Navigation)
    (this : NavigationStateManager) : NavigationStateManager :=
  let this := set_routerState (memento_routerState (stateMemento this)) this in
  let this := set_currentUrlTree (memento_currentUrlTree (stateMemento this)) this in
  set_rawUrlTree
    (merge (currentUrlTree this)
       (match finalUrl navigation with
        | Some u => u
        | None => rawUrlTree this
        end))
    this.

(** ** Outgoing native navigations *)

(** [transition.cancel?.()] and [transition.commitUrl?.()]. *)
Definition call_optional (cb : option Callback) : list Effect :=
  match cb with
  | Some f => [Call f]
  | None => []
  end.

(** [{...transition.extras.state}]: a fresh object with the same properties;
    spreading [undefined] gives the empty object. *)
Definition spread (st : option Payload) : Payload :=
  match st with
  | Some o => o
  | None => []
  end.

(** [navigate(rawUrl, transition, deferredCommit)]: one
    [navigation.navigate] call; [r] is the reference stored in the metadata. *)
Definition navigate (h : Host) (rawUrl : UrlTree) (r : TransitionRef)
    (transition : Navigation) (deferred : bool) : list Effect :=
  let path := serialize rawUrl in
  let st := spread (state (extras transition)) in
  let history :=
    if location_isCurrentPathEqualTo h path && replaceUrl (extras transition)
    then Replace else Push in
  let i := {| intercept := Some true;
              focusReset := Some Manual;
              scroll := None;
              deferredCommit := Some deferred;
              transition := Some r;
              rollback := None |} in
  [Navigation_navigate path
     {| opt_state := Some st; opt_history := history; opt_info := InfoObject i |}].

(** [cancel]; [restoringFromCaughtError] is not read by the body. *)
Definition cancel (h : Host) (transition : Navigation)
    (restoringFromCaughtError : bool) (this : NavigationStateManager)
    : NavigationStateManager * list Effect :=
  let called := call_optional (nav_cancel transition) in
  let current := navigation_currentEntry h in
  if negb (String.eqb (entry_id current) (entry_id (activeHistoryEntry this))) then
    if negb (String.eqb (entry_key current) (entry_key (activeHistoryEntry this))) then
      (this,
       called ++
       [Navigation_traverseTo (entry_key (activeHistoryEntry this))
          (InfoString "rollback")])
    else
      let this := resetInternalState transition this in
      (this,
       called ++
       [Navigation_navigate (serialize (rawUrlTree this))
          {| opt_state := entry_getState (activeHistoryEntry this);
             opt_history := Replace;
             opt_info := InfoString "rollback" |}])
  else (this, called).

(** ** Router events *)

(** Modelled from the spec: [NavigationCancellationCode] of [../events], which
    is not part of the sources at hand.  The manager names two members, "guard
    rejected" and "resolver produced no data"; every other code is kept as an
    opaque numbered value. *)
Inductive NavigationCancellationCode :=
| GuardRejected
| NoDataFromResolver
| OtherCancellationCode (n : nat).

(** The event classes [handleRouterEvent] tests with [instanceof], in the order
    of the tests; [OtherEvent] stands for every other router event.
    [NavigationCancel] carries its optional [code]. *)
Inductive Event :=
| NavigationStart
| NavigationSkipped
| RoutesRecognized
| BeforeActivateRoutes
| NavigationCancel (code : option NavigationCancellationCode)
| NavigationError
| NavigationEnd
| OtherEvent.

(** [e.code === GuardRejected || e.code === NoDataFromResolver]. *)
Definition code_triggers_cancel (code : option NavigationCancellationCode) : bool :=
  match code with
  | Some GuardRejected => true
  | Some NoDataFromResolver => true
  | _ => false
  end.

(** [handleRouterEvent(e, transition)].  [r] is the reference held by the
    caller and [transition] the object it points to; the method only reads it.
    [transition.finalUrl!] asserts that the pipeline has set [finalUrl] before
    [RoutesRecognized]; the result is [None] when the assertion is violated,
    where [undefined] would be handed to the URL-handling strategy. *)
Definition handleRouterEvent (h : Host) (e : Event) (r : TransitionRef)
    (transition : Navigation) (this : NavigationStateManager)
    : option (NavigationStateManager * list Effect) :=
  match e with
  | NavigationStart =>
      Some (set_stateMemento (createStateMemento this) this, [])
  | NavigationSkipped =>
      Some (set_rawUrlTree (initialUrl transition) this, [])
  | RoutesRecognized =>
      if negb (skipLocationChange (extras transition)) then
        match finalUrl transition with
        | Some final =>
            let rawUrl := merge final (initialUrl transition) in
            Some (this,
                  navigate h rawUrl r transition
                    (String.eqb (urlUpdateStrategy this) "deferred"))
        | None => None
        end
      else Some (this, [])
  | BeforeActivateRoutes =>
      Some (this, call_optional (nav_commitUrl transition))
  | NavigationCancel code =>
      if code_triggers_cancel code
      then Some (cancel h transition false this)
      else Some (this, [])
  | NavigationError =>
      Some (cancel h transition true this)
  | NavigationEnd =>
      Some (set_activeHistoryEntry (navigation_currentEntry h) this, [])
  | OtherEvent => Some (this, [])
  end.

(** ** Native events *)

(** How a listener returns: normally, or by throwing. *)
Inductive Completion :=
| Normal
| Throw (msg : string).

Definition set_commitUrl (cb : option Callback) (t : Navigation) : Navigation :=
  {| initialUrl := initialUrl t;
     finalUrl := finalUrl t;
     extras := extras t;
     nav_finish := nav_finish t;
     nav_cancel := nav_cancel t;
     nav_commitUrl := cb |}.

(** [handleNavigate(event)].  [store] holds the [Navigation] objects;
    [info.transition!.commitUrl = ...] is an assignment through the reference
    and throws a [TypeError] when [info.transition] is [undefined], after
    [this.info] was written and before [event.intercept] is reached. *)
Definition handleNavigate (event : NavigateEvent)
    (store : gmap TransitionRef Navigation) (this : NavigationStateManager)
    : NavigationStateManager * gmap TransitionRef Navigation * list Effect * Completion :=
  let i := event_info event in
  let this := set_info i this in
  if canIntercept event && truthy (info_prop intercept i) then
    let interceptOptions commit :=
      {| io_focusReset := info_prop focusReset i;
         io_scroll := info_prop scroll i;
         io_commit := commit;
         io_handler := BindFinishCancel (info_prop transition i) |} in
    if truthy (info_prop deferredCommit i) then
      match info_prop transition i with
      | Some r =>
          match store !! r with
          | Some t =>
              (this,
               <[r := set_commitUrl (Some (CommitEvent (event_id event))) t]> store,
               [Event_intercept (event_id event)
                  (interceptOptions (Some AfterTransition))],
               Normal)
          | None => (this, store, [], Throw "TypeError")
          end
      | None => (this, store, [], Throw "TypeError")
      end
    else
      (this, store, [Event_intercept (event_id event) (interceptOptions None)], Normal)
  else (this, store, [], Normal).

(** [nonRouterCurrentEntryChangeSubject.emit(event)]: every subscriber reads
    [navigation.currentEntry!] and calls its listener with the entry's [url]
    and [getState()]. *)
Definition emit (h : Host) (this : NavigationStateManager) : list Effect :=
  map (fun l => Listener l (entry_url (navigation_currentEntry h))
                  (entry_getState (navigation_currentEntry h)))
      (nonRouterCurrentEntryChangeSubject this).

(** [handleCurrentEntryChange(event)]; the event object is only forwarded to
    the subscribers, which do not read it. *)
Definition handleCurrentEntryChange (h : Host) (this : NavigationStateManager)
    : NavigationStateManager * list Effect :=
  let i := info this in
  if negb (info_truthy i) then (this, emit h this)
  else if truthy (info_prop rollback i)
  then (set_activeHistoryEntry (navigation_currentEntry h) this, [])
  else (this, []).

Definition registerNonRouterCurrentEntryChangeListener (listener : nat)
    (this : NavigationStateManager) : NavigationStateManager :=
  set_subscribers (nonRouterCurrentEntryChangeSubject this ++ [listener]) this.

(** ** Construction *)

(** The properties of [ROUTER_CONFIGURATION] the manager reads. *)
Record RouterConfig := {
  config_canceledNavigationResolution : option string;
  config_urlUpdateStrategy : option string;
}.

(** [inject(ROUTER_CONFIGURATION, {optional: true}) || {}]. *)
Definition options_of (config : option RouterConfig) : RouterConfig :=
  match config with
  | Some c => c
  | None => {| config_canceledNavigationResolution := None;
               config_urlUpdateStrategy := None |}
  end.

(** [value || fallback] on an optional string: [undefined] and [''] are
    falsy. *)
Definition or_else (value : option string) (fallback : string) : string :=
  match value with
  | Some s => if String.eqb s "" then fallback else s
  | None => fallback
  end.

(** [new UrlTree()] and [createEmptyState(urlTree, null)]. *)
Variable emptyUrlTree : UrlTree.
Variable createEmptyState : UrlTree -> RouterState.

(** The field initialisers, in declaration order. *)
Definition initial_fields (config : option RouterConfig) (h : Host)
    : NavigationStateManager :=
  let options := options_of config in
  let this :=
    {| canceledNavigationResolution :=
         or_else (config_canceledNavigationResolution options) "replace";
       urlUpdateStrategy := or_else (config_urlUpdateStrategy options) "deferred";
       currentUrlTree := emptyUrlTree;
       rawUrlTree := emptyUrlTree;
       activeHistoryEntry := navigation_currentEntry h;
       routerState := createEmptyState emptyUrlTree;
       stateMemento := {| memento_rawUrlTree := emptyUrlTree;
                          memento_currentUrlTree := emptyUrlTree;
                          memento_routerState := createEmptyState emptyUrlTree |};
       nonRouterCurrentEntryChangeSubject := [];
       info := InfoUndefined |} in
  set_stateMemento (createStateMemento this) this.

(** The outcome of [new NavigationStateManager()]: the manager, or the error
    thrown; in both cases with the calls made until then. *)
Inductive Constructed :=
| Built (this : NavigationStateManager) (calls : list Effect)
| Failed (msg : string) (calls : list Effect).

Definition constructor (config : option RouterConfig) (h : Host) : Constructed :=
  let this := initial_fields config h in
  if negb (String.eqb (canceledNavigationResolution this) "computed") then
    Failed
      "Navigation API-based router only supports `computed` canceledNavigationResolution."
      []
  else
    Built this
      [Navigation_addEventListener "navigate";
       Navigation_addEventListener "currententrychange"].

End Manager.

(** ** The native navigation surface *)

Section Platform.

Context {UrlTree RouterState JsValue : Type}.
Variable serialize : UrlTree -> string.
Variable merge : UrlTree -> UrlTree -> UrlTree.

(** A name made from a counter, for the [id] and [key] of new entries. *)
Fixpoint fresh_name (n : nat) : string :=
  match n with
  | O => "entry"
  | S n => String.append "'" (fresh_name n)
  end.

(** Modelled from the spec: a navigation the manager claimed with a deferred
    commit ("postponing the moment a navigation becomes visible until
    explicitly triggered"); [PlatformNavigation] of [@angular/common] is not
    part of the sources at hand. *)
Record PendingNavigation := {
  pending_event : nat;
  pending_path : string;
  pending_state : option (@Payload JsValue);
  pending_history : History;
}.

(** Modelled from the spec: the state of the native navigation surface, which
    is not part of the sources at hand: "an ordered sequence of history
    entries" with its current entry, the claimed navigations whose commit is
    deferred, and a counter for the identities of events and entries. *)
Record Platform := {
  platform_entries : list (@NavigationHistoryEntry JsValue);
  platform_currentEntry : @NavigationHistoryEntry JsValue;
  platform_pending : list PendingNavigation;
  platform_counter : nat;
}.

(** The manager, the [Navigation] objects and the native surface. *)
Record System := {
  manager : @NavigationStateManager UrlTree RouterState JsValue;
  transitions : gmap TransitionRef (@Navigation UrlTree JsValue);
  platform : Platform;
}.

(** Modelled from the spec: the URL shown to the user is the URL of the
    current native entry ([Location] and [PlatformNavigation] are not part of
    the sources at hand). *)
Definition visibleUrl (p : Platform) : string :=
  entry_url (platform_currentEntry p).

(** Modelled from the spec: what the methods read from the native surface;
    [isCurrentPathEqualTo] answers whether "the serialized path is unchanged
    from the current path". *)
Definition host_of (p : Platform) : @Host JsValue :=
  {| navigation_currentEntry := platform_currentEntry p;
     location_isCurrentPathEqualTo := String.eqb (visibleUrl p) |}.

(** The entries up to and including the one in slot [key]. *)
Fixpoint upto_key (key : string) (l : list (@NavigationHistoryEntry JsValue))
    : list (@NavigationHistoryEntry JsValue) :=
  match l with
  | [] => []
  | e :: l => if String.eqb (entry_key e) key then [e] else e :: upto_key key l
  end.

(** Modelled from the spec: committing a navigation makes a new current entry.
    Its [id] is new ("changes every time the entry's content changes"); its
    [key] is that of the current entry for a replace ("stable across
    replace-in-place updates") and new for a push, which also drops the
    entries after the current one. *)
Definition commit_entry (path : string) (st : option (@Payload JsValue))
    (history : History) (p : Platform) : Platform :=
  let n := platform_counter p in
  let current := platform_currentEntry p in
  let before := upto_key (entry_key current) (platform_entries p) in
  let e := {| entry_id := fresh_name n;
              entry_key := match history with
                           | Replace => entry_key current
                           | Push => fresh_name n
                           end;
              entry_url := path;
              entry_getState := st |} in
  {| platform_entries := match history with
                         | Replace => removelast before ++ [e]
                         | Push => before ++ [e]
                         end;
     platform_currentEntry := e;
     platform_pending := platform_pending p;
     platform_counter := S n |}.

Definition set_platform (p : Platform) (s : System) : System :=
  {| manager := manager s; transitions := transitions s; platform := p |}.

(** Modelled from the spec: the native "entry change" event, delivered to the
    manager's listener after the current entry changed. *)
Definition fire_currententrychange (s : System) : System * list (@Effect JsValue) :=
  let '(this, calls) := handleCurrentEntryChange (host_of (platform s)) (manager s) in
  ({| manager := this; transitions := transitions s; platform := platform s |}, calls).

(** The first [event.intercept] call among the calls of a listener. *)
Fixpoint intercepted (calls : list (@Effect JsValue)) : option InterceptOptions :=
  match calls with
  | [] => None
  | Event_intercept _ o :: _ => Some o
  | _ :: calls => intercepted calls
  end.

Definition set_finish_cancel (ev : nat) (t : @Navigation UrlTree JsValue)
    : @Navigation UrlTree JsValue :=
  {| initialUrl := initialUrl t;
     finalUrl := finalUrl t;
     extras := extras t;
     nav_finish := Some (ResolveHandler ev);
     nav_cancel := Some (RejectHandler ev);
     nav_commitUrl := nav_commitUrl t |}.

(** Running the handler closure of [handleNavigate] for event [ev]:
    [info.transition!.finish = resolve; info.transition!.cancel = reject]. *)
Definition run_handler (hd : Handler) (ev : nat)
    (store : gmap TransitionRef (@Navigation UrlTree JsValue))
    : gmap TransitionRef (@Navigation UrlTree JsValue) :=
  match hd with
  | BindFinishCancel (Some r) => alter (set_finish_cancel ev) r store
  | BindFinishCancel None => store
  end.

(** Modelled from the spec: a native navigation with metadata [i] towards
    [path] fires the interceptable "navigate" event on the manager's listener.
    When the listener claims the event with a deferred commit, the navigation
    waits, and the current entry stays; otherwise it is committed at once and
    the "entry change" event follows.  The handler of a claimed event is run
    by the platform. *)
Definition native_navigation (path : string) (st : option (@Payload JsValue))
    (history : History) (i : JsInfo) (s : System)
    : System * list (@Effect JsValue) :=
  let p := platform s in
  let ev := platform_counter p in
  let event := {| event_id := ev; event_info := i; canIntercept := true |} in
  let p := {| platform_entries := platform_entries p;
              platform_currentEntry := platform_currentEntry p;
              platform_pending := platform_pending p;
              platform_counter := S ev |} in
  let '(this, store, calls, _) := handleNavigate event (transitions s) (manager s) in
  match intercepted calls with
  | Some o =>
      let store := run_handler (io_handler o) ev store in
      match io_commit o with
      | Some AfterTransition =>
          let waiting := {| pending_event := ev; pending_path := path;
                            pending_state := st; pending_history := history |} in
          ({| manager := this; transitions := store;
              platform := {| platform_entries := platform_entries p;
                             platform_currentEntry := platform_currentEntry p;
                             platform_pending := waiting :: platform_pending p;
                             platform_counter := platform_counter p |} |},
           calls)
      | _ =>
          let '(s', more) :=
            fire_currententrychange
              {| manager := this; transitions := store;
                 platform := commit_entry path st history p |} in
          (s', calls ++ more)
      end
  | None =>
      let '(s', more) :=
        fire_currententrychange
          {| manager := this; transitions := store;
             platform := commit_entry path st history p |} in
      (s', calls ++ more)
  end.

Fixpoint find_pending (ev : nat) (l : list PendingNavigation) : option PendingNavigation :=
  match l with
  | [] => None
  | n :: l => if Nat.eqb (pending_event n) ev then Some n else find_pending ev l
  end.

Fixpoint drop_pending (ev : nat) (l : list PendingNavigation) : list PendingNavigation :=
  match l with
  | [] => []
  | n :: l => if Nat.eqb (pending_event n) ev then l else n :: drop_pending ev l
  end.

(** Modelled from the spec: [event.commit()] on a waiting navigation "triggers
    the native navigation's deferred commit": the navigation becomes the
    current entry and the "entry change" event follows.  On an event that is
    not waiting, nothing becomes visible. *)
Definition native_commit (ev : nat) (s : System) : System * list (@Effect JsValue) :=
  let p := platform s in
  match find_pending ev (platform_pending p) with
  | Some n =>
      let p := {| platform_entries := platform_entries p;
                  platform_currentEntry := platform_currentEntry p;
                  platform_pending := drop_pending ev (platform_pending p);
                  platform_counter := platform_counter p |} in
      fire_currententrychange
        (set_platform
           (commit_entry (pending_path n) (pending_state n) (pending_history n) p) s)
  | None => (s, [])
  end.

(** Modelled from the spec: rejecting the handler's promise "causes the native
    layer itself to abort the in-flight navigation": a waiting navigation is
    given up. *)
Definition native_reject (ev : nat) (s : System) : System :=
  let p := platform s in
  set_platform
    {| platform_entries := platform_entries p;
       platform_currentEntry := platform_currentEntry p;
       platform_pending := drop_pending ev (platform_pending p);
       platform_counter := platform_counter p |} s.

Definition find_key (key : string) (l : list (@NavigationHistoryEntry JsValue))
    : option (@NavigationHistoryEntry JsValue) :=
  List.find (fun e => String.eqb (entry_key e) key) l.

(** Modelled from the spec: [traverseTo(key, {info})] fires the "navigate"
    event with the metadata, makes the entry of slot [key] current and fires
    the "entry change" event; an unknown key changes nothing. *)
Definition native_traversal (key : string) (i : JsInfo) (s : System)
    : System * list (@Effect JsValue) :=
  let p := platform s in
  match find_key key (platform_entries p) with
  | Some e =>
      let ev := platform_counter p in
      let event := {| event_id := ev; event_info := i; canIntercept := true |} in
      let '(this, store, calls, _) := handleNavigate event (transitions s) (manager s) in
      let '(s', more) :=
        fire_currententrychange
          {| manager := this; transitions := store;
             platform := {| platform_entries := platform_entries p;
                            platform_currentEntry := e;
                            platform_pending := platform_pending p;
                            platform_counter := S ev |} |} in
      (s', calls ++ more)
  | None => (s, [])
  end.

(** Modelled from the spec: the reaction of the native surface to one call of
    the manager, with the calls the manager's listeners make in turn.  The
    subscribed listeners and the callbacks of the pipeline are outside the
    model. *)
Definition react (c : @Effect JsValue) (s : System) : System * list (@Effect JsValue) :=
  match c with
  | Navigation_navigate path o =>
      native_navigation path (opt_state o) (opt_history o) (opt_info o) s
  | Navigation_traverseTo key i => native_traversal key i s
  | Call (CommitEvent ev) => native_commit ev s
  | Call (RejectHandler ev) => (native_reject ev s, [])
  | _ => (s, [])
  end.

Fixpoint react_all (cs : list (@Effect JsValue)) (s : System)
    : System * list (@Effect JsValue) :=
  match cs with
  | [] => (s, [])
  | c :: cs =>
      let '(s, nested) := react c s in
      let '(s, rest) := react_all cs s in
      (s, c :: nested ++ rest)
  end.

(** One router event on the transition held at reference [r]: the manager
    handles it and the native surface reacts to the calls.  The result carries
    every call made on the way, in order. *)
Definition system_step (e : Event) (r : TransitionRef) (s : System)
    : option (System * list (@Effect JsValue)) :=
  match transitions s !! r with
  | Some t =>
      match handleRouterEvent serialize merge (host_of (platform s)) e r t (manager s) with
      | Some (this, calls) =>
          Some (react_all calls
                  {| manager := this; transitions := transitions s;
                     platform := platform s |})
      | None => None
      end
  | None => None
  end.

Fixpoint system_run (es : list Event) (r : TransitionRef) (s : System)
    : option (System * list (@Effect JsValue)) :=
  match es with
  | [] => Some (s, [])
  | e :: es =>
      match system_step e r s with
      | Some (s, calls) =>
          match system_run es r s with
          | Some (s, rest) => Some (s, calls ++ rest)
          | None => None
          end
      | None => None
      end
  end.

(** The number of [event.commit()] calls in a list of calls. *)
Definition commits (calls : list (@Effect JsValue)) : nat :=
  length (List.filter (fun c => match c with Call (CommitEvent _) => true | _ => false end) calls).

End Platform.

(** ** Sequences of events *)

Section Traces.

Context {UrlTree RouterState JsValue : Type}.
Variable serialize : UrlTree -> string.
Variable merge : UrlTree -> UrlTree -> UrlTree.

(** The metadata of a native navigation call. *)
Definition call_info (c : @Effect JsValue) : option JsInfo :=
  match c with
  | Navigation_navigate _ o => Some (opt_info o)
  | Navigation_traverseTo _ i => Some i
  | _ => None
  end.

(** The two native events the constructor subscribes to. *)
Inductive NativeEvent :=
| NavigateFired (event : NavigateEvent)
| CurrentEntryChangeFired.

(** What reaches the manager: a router event on the transition held at a
    reference, a write to a [Navigation] object from outside the methods (the
    pipeline setting [finalUrl], the intercept handler storing [resolve] and
    [reject]), or a native event. *)
Inductive Input :=
| RouterInput (e : Event) (r : TransitionRef)
| TransitionWritten (r : TransitionRef) (t : @Navigation UrlTree JsValue)
| NativeInput (n : NativeEvent).

(** The manager together with the [Navigation] objects. *)
Definition World : Type :=
  @NavigationStateManager UrlTree RouterState JsValue *
  gmap TransitionRef (@Navigation UrlTree JsValue).

Definition deliver (h : @Host JsValue) (n : NativeEvent) (w : World) : World :=
  match n with
  | NavigateFired event =>
      let '(this, store, _, _) := handleNavigate event (snd w) (fst w) in
      (this, store)
  | CurrentEntryChangeFired =>
      (fst (handleCurrentEntryChange h (fst w)), snd w)
  end.


(** One input, with what the native surface shows at that moment.  A router
    event on a reference that holds no object is not an input of the
    program. *)
Definition feed (h : @Host JsValue) (i : Input) (w : World) : option World :=
  match i with
  | RouterInput e r =>
      match snd w !! r with
      | Some t =>
          match handleRouterEvent serialize merge h e r t (fst w) with
          | Some (this, _) => Some (this, snd w)
          | None => None
          end
      | None => None
      end
  | TransitionWritten r t => Some (fst w, <[r := t]> (snd w))
  | NativeInput n => Some (deliver h n w)
  end.

Fixpoint feed_all (l : list (@Host JsValue * Input)) (w : World) : option World :=
  match l with
  | [] => Some w
  | (h, i) :: l =>
      match feed h i w with
      | Some w => feed_all l w
      | None => None
      end
  end.

Definition is_navigation_start (i : Input) : bool :=
  match i with
  | RouterInput NavigationStart _ => true
  | _ => false
  end.

(** The router events that run [cancel]. *)
Definition runs_cancel (e : Event) : bool :=
  match e with
  | NavigationCancel code => code_triggers_cancel code
  | NavigationError => true
  | _ => false
  end.

(** The metadata of the last navigate event among the inputs, [i0] when there
    is none. *)
Fixpoint last_navigate_info (l : list (@Host JsValue * Input)) (i0 : JsInfo) : JsInfo :=
  match l with
  | [] => i0
  | (_, NativeInput (NavigateFired event)) :: l => last_navigate_info l (event_info event)
  | _ :: l => last_navigate_info l i0
  end.

(** Successive [registerNonRouterCurrentEntryChangeListener] calls. *)
Definition registerAll (listeners : list nat)
    (this : @NavigationStateManager UrlTree RouterState JsValue)
    : @NavigationStateManager UrlTree RouterState JsValue :=
  fold_left (fun m l => registerNonRouterCurrentEntryChangeListener l m) listeners this.

(** Whether a call is a call of a subscribed listener. *)
Definition is_listener_call (c : @Effect JsValue) : bool :=
  match c with
  | Listener _ _ _ => true
  | _ => false
  end.

End Traces.

(** ** Concrete data

    URLs and router states are strings, the serializer is the identity and the
    URL-handling strategy keeps the new URL part, as the router's default
    strategy does. *)

Definition ex_serialize (u : string) : string := u.

Definition ex_merge (newUrlPart rawUrl : string) : string := newUrlPart.

Definition entry_a : @NavigationHistoryEntry string :=
  {| entry_id := "id-1"; entry_key := "slot-1"; entry_url := "/a";
     entry_getState := Some [("navigationId", "1")] |}.

(** The entry after a replace in the slot of [entry_a]. *)
Definition entry_a_replaced : @NavigationHistoryEntry string :=
  {| entry_id := "id-2"; entry_key := "slot-1"; entry_url := "/a";
     entry_getState := None |}.

(** The entry after a push from [entry_a]. *)
Definition entry_b : @NavigationHistoryEntry string :=
  {| entry_id := "id-3"; entry_key := "slot-2"; entry_url := "/b";
     entry_getState := None |}.

(** The native surface seen by a method while [e] is the current entry; the
    location path is the entry's URL. *)
Definition host_at (e : @NavigationHistoryEntry string) : @Host string :=
  {| navigation_currentEntry := e;
     location_isCurrentPathEqualTo := String.eqb (entry_url e) |}.

(** A transition from [/a] to [/b] that asks for [replaceUrl]. *)
Definition transition_a_b : @Navigation string string :=
  {| initialUrl := "/a";
     finalUrl := Some "/b";
     extras := {| skipLocationChange := false; replaceUrl := true; state := None |};
     nav_finish := Some (ResolveHandler 0);
     nav_cancel := Some (RejectHandler 0);
     nav_commitUrl := None |}.

(** A manager whose last completed transition ended on [entry_a] and whose
    memento was taken at [/a]. *)
Definition manager_a : @NavigationStateManager string string string :=
  {| canceledNavigationResolution := "computed";
     urlUpdateStrategy := "deferred";
     currentUrlTree := "/b";
     rawUrlTree := "/b";
     activeHistoryEntry := entry_a;
     routerState := "state of /b";
     stateMemento := {| memento_rawUrlTree := "/a?utm=1";
                        memento_currentUrlTree := "/a";
                        memento_routerState := "state of /a" |};
     nonRouterCurrentEntryChangeSubject := [7; 8];
     info := InfoUndefined |}.

Definition config_computed : RouterConfig :=
  {| config_canceledNavigationResolution := Some "computed";
     config_urlUpdateStrategy := None |}.

(** A transition that stays on [/a] and asks for [replaceUrl]. *)
Definition transition_replace : @Navigation string string :=
  {| initialUrl := "/a";
     finalUrl := Some "/a";
     extras := {| skipLocationChange := false; replaceUrl := true; state := None |};
     nav_finish := None;
     nav_cancel := None;
     nav_commitUrl := None |}.

(** The manager at rest on [entry_a], before a transition starts. *)
Definition manager_at_a : @NavigationStateManager string string string :=
  {| canceledNavigationResolution := "computed";
     urlUpdateStrategy := "deferred";
     currentUrlTree := "/a";
     rawUrlTree := "/a?utm=1";
     activeHistoryEntry := entry_a;
     routerState := "state of /a";
     stateMemento := {| memento_rawUrlTree := "/";
                        memento_currentUrlTree := "/";
                        memento_routerState := "state of /" |};
     nonRouterCurrentEntryChangeSubject := [7; 8];
     info := InfoUndefined |}.

(** The metadata [navigate] builds for the transition at reference [r]. *)
Definition info_for (r : TransitionRef) : JsInfo :=
  InfoObject {| intercept := Some true;
                focusReset := Some Manual;
                scroll := None;
                deferredCommit := Some true;
                transition := Some r;
                rollback := None |}.


(** [world_start] after [NavigationStart]. *)
Definition world_started : @World string string string :=
  (set_stateMemento (createStateMemento manager_at_a) manager_at_a,
   {[ 2 := transition_replace ]}).

(** The transition is recognized, its navigate event is claimed, the handler
    stores [resolve] and [reject], the URL is committed in place. *)
Definition inputs_until_activation : list (@Host string * @Input string string) :=
  [(host_at entry_a, RouterInput RoutesRecognized 2);
   (host_at entry_a,
    NativeInput (NavigateFired {| event_id := 0; event_info := info_for 2;
                                  canIntercept := true |}));
   (host_at entry_a,
    TransitionWritten 2
      (set_finish_cancel 0 (set_commitUrl (Some (CommitEvent 0)) transition_replace)));
   (host_at entry_a, RouterInput BeforeActivateRoutes 2);
   (host_at entry_a_replaced, NativeInput CurrentEntryChangeFired)].

Definition world_activating : @World string string string :=
  (set_info (info_for 2) (fst world_started),
   {[ 2 := set_finish_cancel 0
             (set_commitUrl (Some (CommitEvent 0)) transition_replace) ]}).

(** The entry after the rollback replace-navigate in the slot of [entry_a]. *)
Definition entry_a_rolled_back : @NavigationHistoryEntry string :=
  {| entry_id := "id-4"; entry_key := "slot-1"; entry_url := "/a";
     entry_getState := Some [("navigationId", "1")] |}.


(** A system at rest on [entry_a] that holds the transition from [/a] to
    [/b]. *)
Definition system_a : @System string string string :=
  {| manager := manager_at_a;
     transitions := {[ 1 := transition_a_b ]};
     platform := {| platform_entries := [entry_a];
                    platform_currentEntry := entry_a;
                    platform_pending := [];
                    platform_counter := 0 |} |}.

(** [manager_a] with the transition from [/a] to [/b], before and after a
    cancellation in the slot of [entry_a], and after a [NavigationEnd] on
    [entry_b]. *)
Definition world_b : @World string string string :=
  (manager_a, {[ 1 := transition_a_b ]}).

Definition world_b_cancelled : @World string string string :=
  (resetInternalState ex_merge transition_a_b manager_a, {[ 1 := transition_a_b ]}).

Definition world_b_ended : @World string string string :=
  (set_activeHistoryEntry entry_b manager_a, {[ 1 := transition_a_b ]}).

(** Metadata that asks for a deferred commit and names no transition. *)
Definition info_without_transition : JsInfo :=
  InfoObject {| intercept := Some true;
                focusReset := None;
                scroll := None;
                deferredCommit := Some true;
                transition := None;
                rollback := None |}.

(** [system_a] with the ['eager'] URL update strategy. *)
Definition system_eager : @System string string string :=
  {| manager :=
       {| canceledNavigationResolution := "computed";
          urlUpdateStrategy := "eager";
          currentUrlTree := "/a";
          rawUrlTree := "/a";
          activeHistoryEntry := entry_a;
          routerState := "state of /a";
          stateMemento := {| memento_rawUrlTree := "/a";
                             memento_currentUrlTree := "/a";
                             memento_routerState := "state of /a" |};
          nonRouterCurrentEntryChangeSubject := [7; 8];
          info := InfoUndefined |};
     transitions := {[ 1 := transition_replace ]};
     platform := {| platform_entries := [entry_a];
                    platform_currentEntry := entry_a;
                    platform_pending := [];
                    platform_counter := 0 |} |}.

(** The manager constructed with ['computed'] while [entry_a] is current. *)
Definition manager_built : @NavigationStateManager string string string :=
  initial_fields "" (fun u : string => u) (Some config_computed) (host_at entry_a).

(** A skipped transition followed by a failed one, on [manager_built]. *)
Definition inputs_after_construction : list (@Host string * @Input string string) :=
  [(host_at entry_a, RouterInput NavigationStart 1);
   (host_at entry_a, RouterInput NavigationSkipped 1);
   (host_at entry_a, RouterInput NavigationStart 1);
   (host_at entry_a_replaced, RouterInput NavigationError 1)].





(** ** Properties *)

Section Properties.

Context {UrlTree RouterState JsValue : Type}.
Variable serialize : UrlTree -> string.
Variable merge : UrlTree -> UrlTree -> UrlTree.

Implicit Types (h : @Host JsValue) (t : @Navigation UrlTree JsValue)
  (this : @NavigationStateManager UrlTree RouterState JsValue)
  (r : TransitionRef).

Lemma cancel_same_id h t b this :
  entry_id (navigation_currentEntry h) = entry_id (activeHistoryEntry this) ->
  cancel serialize merge h t b this = (this, call_optional (nav_cancel t)).
Proof.
  intros Hid. unfold cancel. rewrite Hid, String.eqb_refl. reflexivity.
Qed.

Lemma cancel_other_key h t b this :
  entry_id (navigation_currentEntry h) <> entry_id (activeHistoryEntry this) ->
  entry_key (navigation_currentEntry h) <> entry_key (activeHistoryEntry this) ->
  cancel serialize merge h t b this =
    (this,
     call_optional (nav_cancel t) ++
     [Navigation_traverseTo (entry_key (activeHistoryEntry this))
        (InfoString "rollback")]).
Proof.
  intros Hid Hkey. unfold cancel.
  apply String.eqb_neq in Hid. apply String.eqb_neq in Hkey.
  rewrite Hid, Hkey. reflexivity.
Qed.

Lemma cancel_same_key h t b this :
  entry_id (navigation_currentEntry h) <> entry_id (activeHistoryEntry this) ->
  entry_key (navigation_currentEntry h) = entry_key (activeHistoryEntry this) ->
  cancel serialize merge h t b this =
    (resetInternalState merge t this,
     call_optional (nav_cancel t) ++
     [Navigation_navigate (serialize (rawUrlTree (resetInternalState merge t this)))
        {| opt_state := entry_getState (activeHistoryEntry this);
           opt_history := Replace;
           opt_info := InfoString "rollback" |}]).
Proof.
  intros Hid Hkey. unfold cancel.
  apply String.eqb_neq in Hid. rewrite Hid, Hkey, String.eqb_refl. reflexivity.
Qed.

(** C1 (amended).  When the current native entry and [activeHistoryEntry]
    differ in [id], [cancel] looks at the [key]: with a different [key] it
    issues [traverseTo(activeHistoryEntry.key)] tagged ['rollback'] and leaves
    the manager as it is; with the same [key] it restores the manager from the
    memento and issues a replace-navigate to the restored raw URL, with the
    state of [activeHistoryEntry] and the ['rollback'] tag, and no traversal. *)
Theorem cancel_rollback_by_key h t b this :
  entry_id (navigation_currentEntry h) <> entry_id (activeHistoryEntry this) ->
  (entry_key (navigation_currentEntry h) <> entry_key (activeHistoryEntry this) ->
   cancel serialize merge h t b this =
     (this,
      call_optional (nav_cancel t) ++
      [Navigation_traverseTo (entry_key (activeHistoryEntry this))
         (InfoString "rollback")]))
  /\
  (entry_key (navigation_currentEntry h) = entry_key (activeHistoryEntry this) ->
   cancel serialize merge h t b this =
     (resetInternalState merge t this,
      call_optional (nav_cancel t) ++
      [Navigation_navigate (serialize (rawUrlTree (resetInternalState merge t this)))
         {| opt_state := entry_getState (activeHistoryEntry this);
            opt_history := Replace;
            opt_info := InfoString "rollback" |}])).
Proof.
  intros Hid. split; intros Hkey.
  - now apply cancel_other_key.
  - now apply cancel_same_key.
Qed.

(** C3.  On [RoutesRecognized] without [skipLocationChange], exactly one
    [navigation.navigate] call is made; its path serializes the strategy's
    merge of [finalUrl] into [initialUrl]; its history mode is [replace]
    exactly when the path equals the current location path and [replaceUrl]
    was requested, and [push] otherwise, so a changed path gives [push]
    whatever was requested. *)
Theorem routes_recognized_navigates_once h r t this (final : UrlTree) :
  skipLocationChange (extras t) = false ->
  finalUrl t = Some final ->
  let path := serialize (merge final (initialUrl t)) in
  exists o,
    handleRouterEvent serialize merge h RoutesRecognized r t this
      = Some (this, [Navigation_navigate path o]) /\
    (opt_history o = Replace <->
       location_isCurrentPathEqualTo h path = true /\ replaceUrl (extras t) = true) /\
    (opt_history o = Push <->
       ~ (location_isCurrentPathEqualTo h path = true /\ replaceUrl (extras t) = true)) /\
    (location_isCurrentPathEqualTo h path = false -> opt_history o = Push).
Proof.
  intros Hskip Hfinal path. cbn [handleRouterEvent].
  rewrite Hskip, Hfinal. cbn [negb]. unfold navigate. fold path.
  eexists. split; [reflexivity |]. cbn [opt_history].
  destruct (location_isCurrentPathEqualTo h path), (replaceUrl (extras t));
    cbn [andb]; intuition congruence.
Qed.

(** C9.  [NavigationSkipped] sets the raw URL tree to the transition's
    [initialUrl], leaves the other fields and the memento as they are, and
    makes no call. *)
Theorem navigation_skipped_sets_raw_url h r t this :
  exists this',
    handleRouterEvent serialize merge h NavigationSkipped r t this = Some (this', []) /\
    getRawUrlTree this' = initialUrl t /\
    currentUrlTree this' = currentUrlTree this /\
    routerState this' = routerState this /\
    activeHistoryEntry this' = activeHistoryEntry this /\
    stateMemento this' = stateMemento this /\
    info this' = info this.
Proof.
  exists (set_rawUrlTree (initialUrl t) this). repeat split.
Qed.

Lemma code_triggers_cancel_spec (code : option NavigationCancellationCode) :
  code_triggers_cancel code = true <->
  code = Some GuardRejected \/ code = Some NoDataFromResolver.
Proof.
  destruct code as [[| | n] |]; cbn; split; intros H;
    try discriminate; try tauto; destruct H; discriminate.
Qed.

(** C10.  A [NavigationCancel] whose code is neither [GuardRejected] nor
    [NoDataFromResolver] changes nothing and makes no call, the transition's
    [cancel] callback included; the two codes and [NavigationError] run
    [cancel]. *)
Theorem navigation_cancel_other_code_is_no_op h r t this
    (code : option NavigationCancellationCode) :
  code <> Some GuardRejected ->
  code <> Some NoDataFromResolver ->
  handleRouterEvent serialize merge h (NavigationCancel code) r t this = Some (this, []) /\
  handleRouterEvent serialize merge h (NavigationCancel (Some GuardRejected)) r t this
    = Some (cancel serialize merge h t false this) /\
  handleRouterEvent serialize merge h (NavigationCancel (Some NoDataFromResolver)) r t this
    = Some (cancel serialize merge h t false this) /\
  handleRouterEvent serialize merge h NavigationError r t this
    = Some (cancel serialize merge h t true this).
Proof.
  intros Hguard Hdata. repeat split. cbn [handleRouterEvent].
  destruct (code_triggers_cancel code) eqn:Hc; [| reflexivity].
  apply code_triggers_cancel_spec in Hc. tauto.
Qed.

Section Construction.

Variable emptyUrlTree : UrlTree.
Variable createEmptyState : UrlTree -> RouterState.

(** C4.  [new NavigationStateManager()] throws exactly when the effective
    [canceledNavigationResolution], ['replace'] unless configured, is not
    ['computed']; it throws before any [addEventListener] call; without a
    configuration it throws. *)
Theorem constructor_fails_unless_computed (config : option RouterConfig) h :
  let effective :=
    or_else (config_canceledNavigationResolution (options_of config)) "replace" in
  (effective <> "computed" <->
   exists msg, constructor emptyUrlTree createEmptyState config h = Failed msg []) /\
  (effective = "computed" <->
   exists this,
     constructor emptyUrlTree createEmptyState config h =
       Built this [Navigation_addEventListener "navigate";
                   Navigation_addEventListener "currententrychange"]) /\
  (forall msg calls,
     constructor emptyUrlTree createEmptyState config h = Failed msg calls -> calls = []) /\
  (config = None ->
   effective = "replace" /\
   exists msg, constructor emptyUrlTree createEmptyState config h = Failed msg []).
Proof.
  intros effective. unfold constructor.
  change (canceledNavigationResolution (initial_fields emptyUrlTree createEmptyState config h))
    with effective.
  destruct (String.eqb_spec effective "computed") as [He | He]; cbn [negb].
  - split; [| split; [| split]].
    + split; [intros Hne; contradiction | intros [msg Hm]; discriminate].
    + split; [intros _; eexists; reflexivity | intros _; exact He].
    + intros msg calls Hm. discriminate.
    + intros ->. discriminate He.
  - split; [| split; [| split]].
    + split; [intros _; eexists; reflexivity | intros _; exact He].
    + split; [intros He'; contradiction | intros [this Hb]; discriminate].
    + intros msg calls Hm. now inversion Hm.
    + intros ->. split; [reflexivity | eexists; reflexivity].
Qed.

End Construction.

(** *** What native events leave alone *)

Lemma handleNavigate_manager (event : NavigateEvent)
    (store : gmap TransitionRef (@Navigation UrlTree JsValue)) this :
  exists store' calls completion,
    handleNavigate event store this
      = (set_info (event_info event) this, store', calls, completion).
Proof.
  unfold handleNavigate.
  destruct (canIntercept event && truthy (info_prop intercept (event_info event)));
    [| eauto].
  destruct (truthy (info_prop deferredCommit (event_info event))); [| eauto].
  destruct (info_prop transition (event_info event)) as [r' |]; [| eauto].
  destruct (store !! r'); eauto.
Qed.

Lemma handleCurrentEntryChange_frame h this :
  createStateMemento (fst (handleCurrentEntryChange h this)) = createStateMemento this /\
  stateMemento (fst (handleCurrentEntryChange h this)) = stateMemento this /\
  info (fst (handleCurrentEntryChange h this)) = info this.
Proof.
  unfold handleCurrentEntryChange.
  destruct (negb (info_truthy (info this))); [now repeat split |].
  destruct (truthy (info_prop rollback (info this))); now repeat split.
Qed.

Lemma deliver_frame h (n : NativeEvent) (w : @World UrlTree RouterState JsValue) :
  createStateMemento (fst (deliver h n w)) = createStateMemento (fst w) /\
  stateMemento (fst (deliver h n w)) = stateMemento (fst w).
Proof.
  destruct n as [event |]; cbn [deliver].
  - destruct (handleNavigate_manager event (snd w) (fst w)) as (store' & calls & c & ->).
    now split.
  - cbn [fst]. destruct (handleCurrentEntryChange_frame h (fst w)) as (H1 & H2 & _).
    now split.
Qed.


(** *** The memento *)

Lemma cancel_keeps_memento h t b this :
  stateMemento (fst (cancel serialize merge h t b this)) = stateMemento this.
Proof.
  unfold cancel.
  destruct (negb _); [| reflexivity]. destruct (negb _); reflexivity.
Qed.

Lemma handleRouterEvent_keeps_memento h (e : Event) r t this this' calls :
  e <> NavigationStart ->
  handleRouterEvent serialize merge h e r t this = Some (this', calls) ->
  stateMemento this' = stateMemento this.
Proof.
  intros Hstart H. destruct e; cbn [handleRouterEvent] in H.
  - contradiction.
  - now inversion H.
  - destruct (negb _); [destruct (finalUrl t) |]; now inversion H.
  - now inversion H.
  - destruct (code_triggers_cancel code); inversion H as [[H1 H2]].
    + rewrite (surjective_pairing (cancel serialize merge h t false this)) in H1.
      inversion H1. apply cancel_keeps_memento.
    + reflexivity.
  - inversion H as [[H1 H2]].
    rewrite (surjective_pairing (cancel serialize merge h t true this)) in H1.
    inversion H1. apply cancel_keeps_memento.
  - now inversion H.
  - now inversion H.
Qed.

Lemma feed_keeps_memento h (i : Input) (w w' : @World UrlTree RouterState JsValue) :
  is_navigation_start i = false ->
  feed serialize merge h i w = Some w' ->
  stateMemento (fst w') = stateMemento (fst w).
Proof.
  intros Hstart H. destruct i as [e r | r t | n]; cbn [feed] in H.
  - destruct (snd w !! r) as [t |]; [| discriminate].
    destruct (handleRouterEvent serialize merge h e r t (fst w)) as [[this calls] |] eqn:He;
      [| discriminate].
    inversion H; subst w'. cbn [fst].
    eapply handleRouterEvent_keeps_memento; [| exact He].
    intros ->. discriminate Hstart.
  - now inversion H.
  - inversion H. apply deliver_frame.
Qed.



Lemma runs_cancel_spec h (e : Event) r t this :
  runs_cancel e = true ->
  exists b, handleRouterEvent serialize merge h e r t this
            = Some (cancel serialize merge h t b this).
Proof.
  destruct e; cbn [runs_cancel]; try discriminate.
  - intros Hc. exists false. cbn [handleRouterEvent]. now rewrite Hc.
  - intros _. now exists true.
Qed.


(** *** Metadata of the native calls *)

Lemma cancel_call_info h t b this (c : @Effect JsValue) (i : JsInfo) :
  In c (snd (cancel serialize merge h t b this)) ->
  call_info c = Some i ->
  i = InfoString "rollback".
Proof.
  unfold cancel, call_optional.
  destruct (negb _); [destruct (negb _) |]; destruct (nav_cancel t); cbn;
    intros Hin Hc; intuition (subst; cbn in Hc; congruence).
Qed.

Lemma handleNavigate_no_native_call (event : NavigateEvent)
    (store : gmap TransitionRef (@Navigation UrlTree JsValue)) this
    (c : @Effect JsValue) :
  In c (snd (fst (handleNavigate event store this))) -> call_info c = None.
Proof.
  unfold handleNavigate.
  destruct (canIntercept event && truthy (info_prop intercept (event_info event)));
    [| contradiction].
  destruct (truthy (info_prop deferredCommit (event_info event))).
  - destruct (info_prop transition (event_info event)) as [r' |]; [| contradiction].
    destruct (store !! r'); [| contradiction].
    cbn. intros [<- | []]. reflexivity.
  - cbn. intros [<- | []]. reflexivity.
Qed.

Lemma handleCurrentEntryChange_no_native_call h this (c : @Effect JsValue) :
  In c (snd (handleCurrentEntryChange h this)) -> call_info c = None.
Proof.
  unfold handleCurrentEntryChange, emit.
  destruct (negb (info_truthy (info this))).
  - cbn [snd]. intros Hin. apply in_map_iff in Hin as (l & <- & _). reflexivity.
  - destruct (truthy (info_prop rollback (info this))); contradiction.
Qed.

(** A call found among the calls of [cancel] carries the ['rollback'] string:
    [H] is the equation of the event handler, [Hin] the membership of the call
    and [Hc] its metadata. *)
Ltac rollback_call H Hin Hc :=
  let Hcancel := fresh "Hcancel" in
  inversion H as [Hcancel];
  match type of Hc with
  | call_info _ = Some ?i =>
      assert (i = InfoString "rollback")
        by (eapply cancel_call_info; [| exact Hc]; rewrite Hcancel; exact Hin);
      subst i; now split
  end.

(** C5 (amended).  The navigate call made on [RoutesRecognized] carries
    metadata with [intercept = true]; the rollback calls made by a
    cancellation carry the ['rollback'] metadata, which has no [intercept]
    property; the native event listeners make no native navigation call. *)
Theorem native_calls_intercept_or_rollback :
  (forall h (e : Event) r t this this' calls (c : @Effect JsValue) (i : JsInfo),
     handleRouterEvent serialize merge h e r t this = Some (this', calls) ->
     In c calls -> call_info c = Some i ->
     (e = RoutesRecognized /\ info_prop intercept i = Some true) \/
     (runs_cancel e = true /\ i = InfoString "rollback" /\
      info_prop intercept i = None)) /\
  (forall (event : NavigateEvent)
          (store : gmap TransitionRef (@Navigation UrlTree JsValue)) this
          (c : @Effect JsValue),
     In c (snd (fst (handleNavigate event store this))) -> call_info c = None) /\
  (forall h this (c : @Effect JsValue),
     In c (snd (handleCurrentEntryChange h this)) -> call_info c = None).
Proof.
  split; [| split].
  - intros h e r t this this' calls c i H Hin Hc.
    destruct e; cbn [handleRouterEvent] in H.
    + inversion H; subst. contradiction.
    + inversion H; subst. contradiction.
    + left. split; [reflexivity |].
      destruct (negb _); [destruct (finalUrl t); [| discriminate] |];
        inversion H; subst; [| contradiction].
      unfold navigate in Hin. destruct Hin as [<- | []].
      cbn in Hc. inversion Hc. reflexivity.
    + inversion H; subst. unfold call_optional in Hin.
      destruct (nav_commitUrl t); [destruct Hin as [<- | []]; discriminate | contradiction].
    + destruct (code_triggers_cancel code) eqn:Hcode.
      * right. split; [exact Hcode |]. rollback_call H Hin Hc.
      * inversion H; subst. contradiction.
    + right. split; [reflexivity |]. rollback_call H Hin Hc.
    + inversion H; subst. contradiction.
    + inversion H; subst. contradiction.
  - apply handleNavigate_no_native_call.
  - apply handleCurrentEntryChange_no_native_call.
Qed.

(** *** Entry changes *)

Lemma entry_change_with_rollback_property h this :
  truthy (info_prop rollback (info this)) = true ->
  handleCurrentEntryChange h this
    = (set_activeHistoryEntry (navigation_currentEntry h) this, []).
Proof.
  intros Hr. unfold handleCurrentEntryChange.
  destruct (info this) as [| s | o]; try discriminate. cbn in *. now rewrite Hr.
Qed.

Lemma entry_change_with_string h this (s : string) :
  info this = InfoString s ->
  activeHistoryEntry (fst (handleCurrentEntryChange h this)) = activeHistoryEntry this.
Proof.
  intros Hs. unfold handleCurrentEntryChange. rewrite Hs. cbn.
  destruct (negb (negb (s =? "")%string)); reflexivity.
Qed.

(** C7.  When no metadata was recorded ([this.info] is [undefined]), the
    entry-change handler calls every registered listener with the [url] and
    [getState()] of the current entry and leaves the manager as it is; when
    metadata was recorded, no listener is called.  The handler tests [!info]:
    metadata counts as recorded when it is truthy, and any falsy [info] is
    handled as [undefined] is. *)
Theorem entry_change_without_metadata h this :
  (info this = InfoUndefined ->
   handleCurrentEntryChange h this =
     (this,
      map (fun l => Listener l (entry_url (navigation_currentEntry h))
                      (entry_getState (navigation_currentEntry h)))
          (nonRouterCurrentEntryChangeSubject this)) /\
   forall l : nat,
     In (Listener l (entry_url (navigation_currentEntry h))
           (entry_getState (navigation_currentEntry h)))
        (snd (handleCurrentEntryChange h
                (registerNonRouterCurrentEntryChangeListener l this)))) /\
  (info_truthy (info this) = true ->
   forall (l : nat) (u : string) (st : option (@Payload JsValue)),
     ~ In (Listener l u st) (snd (handleCurrentEntryChange h this))) /\
  (info_truthy (info this) = false ->
   handleCurrentEntryChange h this = (this, emit h this)).
Proof.
  split; [| split].
  - intros Hi. split.
    + unfold handleCurrentEntryChange. rewrite Hi. reflexivity.
    + intros l. unfold handleCurrentEntryChange, registerNonRouterCurrentEntryChangeListener.
      cbn [info set_subscribers]. rewrite Hi. cbn [info_truthy negb snd].
      unfold emit. cbn [nonRouterCurrentEntryChangeSubject].
      apply in_map_iff. exists l. split; [reflexivity |].
      apply in_or_app. right. now left.
  - intros Hi l u st. unfold handleCurrentEntryChange. rewrite Hi. cbn [negb].
    destruct (truthy (info_prop rollback (info this))); cbn; tauto.
  - intros Hi. unfold handleCurrentEntryChange. rewrite Hi. reflexivity.
Qed.

(** *** Deferred commit *)

Lemma system_step_other_event (s : @System UrlTree RouterState JsValue) r :
  is_Some (transitions s !! r) ->
  system_step serialize merge OtherEvent r s = Some (s, []).
Proof.
  intros [t Ht]. unfold system_step. rewrite Ht. cbn. now destruct s.
Qed.

Lemma system_run_other_events (s : @System UrlTree RouterState JsValue) r (k : nat) :
  is_Some (transitions s !! r) ->
  system_run serialize merge (repeat OtherEvent k) r s = Some (s, []).
Proof.
  intros Hr. induction k as [| k IH]; cbn [repeat system_run]; [reflexivity |].
  rewrite (system_step_other_event s r Hr), IH. reflexivity.
Qed.

Lemma deferred_commit_steps
    (s : @System UrlTree RouterState JsValue) r t (final : UrlTree) (between : nat) :
  urlUpdateStrategy (manager s) = "deferred" ->
  transitions s !! r = Some t ->
  skipLocationChange (extras t) = false ->
  finalUrl t = Some final ->
  let path := serialize (merge final (initialUrl t)) in
  let ev := platform_counter (platform s) in
  exists s1 s2 o io,
    system_step serialize merge RoutesRecognized r s
      = Some (s1, [Navigation_navigate path o; Event_intercept ev io]) /\
    info_prop deferredCommit (opt_info o) = Some true /\
    io_commit io = Some AfterTransition /\
    (transitions s1 !! r) ≫= nav_commitUrl = Some (CommitEvent ev) /\
    visibleUrl (platform s1) = visibleUrl (platform s) /\
    system_run serialize merge (repeat OtherEvent between) r s1 = Some (s1, []) /\
    system_step serialize merge BeforeActivateRoutes r s1
      = Some (s2, [Call (CommitEvent ev)]) /\
    visibleUrl (platform s2) = path.
Proof.
  intros Hdef Ht Hskip Hfinal path ev.
  unfold system_step at 1. rewrite Ht. cbn [handleRouterEvent].
  rewrite Hskip, Hfinal, Hdef, String.eqb_refl. cbn [negb].
  unfold navigate. fold path. cbn [react_all react opt_state opt_history opt_info].
  unfold native_navigation. cbn [platform transitions manager].
  unfold handleNavigate.
  cbn [event_info canIntercept info_prop intercept deferredCommit transition truthy andb event_id focusReset scroll].
  rewrite Ht. cbn [intercepted io_handler io_commit run_handler].
  cbn [platform_entries platform_currentEntry platform_pending platform_counter app].
  fold ev.
  eexists. eexists. eexists. eexists.
  split; [reflexivity |].
  cbn [opt_info info_prop deferredCommit io_commit transitions platform].
  assert (Hlook : alter (set_finish_cancel ev) r
             (<[r:=set_commitUrl (Some (CommitEvent ev)) t]> (transitions s)) !! r
           = Some (set_finish_cancel ev (set_commitUrl (Some (CommitEvent ev)) t))).
  { rewrite lookup_alter_eq, lookup_insert_eq. reflexivity. }
  split; [reflexivity |]. split; [reflexivity |].
  split; [rewrite Hlook; reflexivity |].
  split; [reflexivity |].
  split; [apply system_run_other_events; cbn [transitions]; rewrite Hlook; eauto |].
  unfold system_step. cbn [transitions]. rewrite Hlook.
  cbn [handleRouterEvent set_finish_cancel nav_commitUrl set_commitUrl call_optional].
  cbn [react_all react]. unfold native_commit. cbn [platform platform_pending find_pending pending_event].
  rewrite Nat.eqb_refl.
  unfold fire_currententrychange, set_platform, handleCurrentEntryChange.
  cbn [manager platform transitions info set_info info_truthy negb info_prop rollback truthy
       app fst snd].
  split; [reflexivity |].
  reflexivity.
Qed.

Lemma system_run_app (l1 l2 : list Event) r (s : @System UrlTree RouterState JsValue) :
  system_run serialize merge (l1 ++ l2) r s =
    match system_run serialize merge l1 r s with
    | Some (s1, calls1) =>
        match system_run serialize merge l2 r s1 with
        | Some (s2, calls2) => Some (s2, calls1 ++ calls2)
        | None => None
        end
    | None => None
    end.
Proof.
  revert s. induction l1 as [| e l1 IH]; intros s; cbn [app system_run].
  - destruct (system_run serialize merge l2 r s) as [[s2 calls2] |]; reflexivity.
  - destruct (system_step serialize merge e r s) as [[s' calls] |]; [| reflexivity].
    rewrite IH.
    destruct (system_run serialize merge l1 r s') as [[s1 calls1] |]; [| reflexivity].
    destruct (system_run serialize merge l2 r s1) as [[s2 calls2] |]; [| reflexivity].
    now rewrite app_assoc.
Qed.

(** C8.  With the deferred URL update strategy, on a transition that does
    not skip the location change: at [RoutesRecognized] the navigate call
    carries [deferredCommit = true] and the navigate event is claimed with
    [commit: 'after-transition'], which binds [commitUrl] on the transition to
    [event.commit()]; the visible URL is unchanged after [RoutesRecognized]
    and through the router events that follow; [BeforeActivateRoutes] calls
    [event.commit()] through [commitUrl], after which the visible URL is the
    navigated path; over the whole run [event.commit()] is called once. *)
Theorem deferred_commit_at_pre_activation
    (s : @System UrlTree RouterState JsValue) r t (final : UrlTree) (between : nat) :
  urlUpdateStrategy (manager s) = "deferred" ->
  transitions s !! r = Some t ->
  skipLocationChange (extras t) = false ->
  finalUrl t = Some final ->
  let path := serialize (merge final (initialUrl t)) in
  let ev := platform_counter (platform s) in
  exists s1 s2 o io,
    system_step serialize merge RoutesRecognized r s
      = Some (s1, [Navigation_navigate path o; Event_intercept ev io]) /\
    info_prop deferredCommit (opt_info o) = Some true /\
    io_commit io = Some AfterTransition /\
    (transitions s1 !! r) ≫= nav_commitUrl = Some (CommitEvent ev) /\
    visibleUrl (platform s1) = visibleUrl (platform s) /\
    system_run serialize merge (repeat OtherEvent between) r s1 = Some (s1, []) /\
    system_step serialize merge BeforeActivateRoutes r s1
      = Some (s2, [Call (CommitEvent ev)]) /\
    visibleUrl (platform s2) = path /\
    exists calls,
      system_run serialize merge
        (RoutesRecognized :: repeat OtherEvent between ++ [BeforeActivateRoutes]) r s
        = Some (s2, calls) /\
      commits calls = 1.
Proof.
  intros Hdef Ht Hskip Hfinal path ev.
  destruct (deferred_commit_steps s r t final between Hdef Ht Hskip Hfinal)
    as (s1 & s2 & o & io & H1 & H2 & H3 & H4 & H5 & H6 & H7 & H8).
  exists s1, s2, o, io. repeat (split; [assumption |]).
  eexists. split.
  - cbn [system_run]. rewrite H1, system_run_app, H6.
    cbn [system_run]. rewrite H7. reflexivity.
  - reflexivity.
Qed.

End Properties.

(** ** The properties on concrete data *)

(** C1, counterexample to the claim as stated.  The current entry
    [entry_a_replaced] has another [id] than [activeHistoryEntry = entry_a]
    and the same [key]; [cancel] makes no [traverseTo] call: it rejects the
    handler, restores the manager from the memento and issues a
    replace-navigate. *)
Lemma cancel_same_key_traversal_counterexample :
  entry_id (navigation_currentEntry (host_at entry_a_replaced))
    <> entry_id (activeHistoryEntry manager_a) /\
  entry_key (navigation_currentEntry (host_at entry_a_replaced))
    = entry_key (activeHistoryEntry manager_a) /\
  snd (cancel ex_serialize ex_merge (host_at entry_a_replaced) transition_a_b false manager_a)
    = [Call (RejectHandler 0);
       Navigation_navigate "/a"
         {| opt_state := Some [("navigationId", "1")];
            opt_history := Replace;
            opt_info := InfoString "rollback" |}] /\
  ~ In (Navigation_traverseTo (entry_key (activeHistoryEntry manager_a))
          (InfoString "rollback"))
       (snd (cancel ex_serialize ex_merge (host_at entry_a_replaced)
               transition_a_b false manager_a)) /\
  fst (cancel ex_serialize ex_merge (host_at entry_a_replaced) transition_a_b false manager_a)
    = resetInternalState ex_merge transition_a_b manager_a /\
  fst (cancel ex_serialize ex_merge (host_at entry_a_replaced) transition_a_b false manager_a)
    <> manager_a.
Proof.
  split; [discriminate |]. split; [reflexivity |]. split; [reflexivity |].
  split; [| split; [reflexivity |]].
  - cbn. intros [H | [H | []]]; discriminate H.
  - intros H. apply (f_equal currentUrlTree) in H. discriminate H.
Qed.

Lemma cancel_rollback_by_key_witness :
  entry_id (navigation_currentEntry (host_at entry_a_replaced))
    <> entry_id (activeHistoryEntry manager_a) /\
  entry_key (navigation_currentEntry (host_at entry_a_replaced))
    = entry_key (activeHistoryEntry manager_a) /\
  cancel ex_serialize ex_merge (host_at entry_a_replaced) transition_a_b false manager_a
    = (resetInternalState ex_merge transition_a_b manager_a,
       [Call (RejectHandler 0);
        Navigation_navigate "/a"
          {| opt_state := Some [("navigationId", "1")];
             opt_history := Replace;
             opt_info := InfoString "rollback" |}]) /\
  entry_id (navigation_currentEntry (host_at entry_b))
    <> entry_id (activeHistoryEntry manager_a) /\
  entry_key (navigation_currentEntry (host_at entry_b))
    <> entry_key (activeHistoryEntry manager_a) /\
  cancel ex_serialize ex_merge (host_at entry_b) transition_a_b true manager_a
    = (manager_a,
       [Call (RejectHandler 0); Navigation_traverseTo "slot-1" (InfoString "rollback")]).
Proof.
  assert (Hid : entry_id (navigation_currentEntry (host_at entry_a_replaced))
                <> entry_id (activeHistoryEntry manager_a)) by discriminate.
  assert (Hid' : entry_id (navigation_currentEntry (host_at entry_b))
                 <> entry_id (activeHistoryEntry manager_a)) by discriminate.
  assert (Hkey' : entry_key (navigation_currentEntry (host_at entry_b))
                  <> entry_key (activeHistoryEntry manager_a)) by discriminate.
  split; [exact Hid |]. split; [reflexivity |].
  split.
  - exact (proj2 (cancel_rollback_by_key ex_serialize ex_merge
                    (host_at entry_a_replaced) transition_a_b false manager_a Hid)
             eq_refl).
  - split; [exact Hid' |]. split; [exact Hkey' |].
    exact (proj1 (cancel_rollback_by_key ex_serialize ex_merge
                    (host_at entry_b) transition_a_b true manager_a Hid')
             Hkey').
Defined.

(** C3 on the scenario of the specification: from [/a] to [/b] with
    [replaceUrl] requested, the navigate call is a push. *)
Lemma routes_recognized_navigates_once_witness :
  skipLocationChange (extras transition_a_b) = false /\
  finalUrl transition_a_b = Some "/b" /\
  replaceUrl (extras transition_a_b) = true /\
  location_isCurrentPathEqualTo (host_at entry_a) "/b" = false /\
  exists o,
    handleRouterEvent ex_serialize ex_merge (host_at entry_a) RoutesRecognized 1
      transition_a_b manager_a
      = Some (manager_a, [Navigation_navigate "/b" o]) /\
    opt_history o = Push.
Proof.
  split; [reflexivity |]. split; [reflexivity |]. split; [reflexivity |].
  split; [reflexivity |].
  destruct (routes_recognized_navigates_once ex_serialize ex_merge
              (host_at entry_a) 1 transition_a_b manager_a "/b" eq_refl eq_refl)
    as (o & Hcall & _ & _ & Hpush).
  exists o. split; [exact Hcall | apply Hpush; reflexivity].
Defined.

(** C4 without a configuration and with ['computed']. *)
Lemma constructor_fails_unless_computed_witness :
  (exists msg,
     constructor "" (fun u : string => u) None (host_at entry_a)
       = @Failed string string string msg []) /\
  (exists this,
     constructor "" (fun u : string => u) (Some config_computed) (host_at entry_a)
       = Built this [Navigation_addEventListener "navigate";
                     Navigation_addEventListener "currententrychange"]).
Proof.
  split.
  - exact (proj2 (proj2 (proj2 (proj2
        (constructor_fails_unless_computed "" (fun u : string => u) None
           (host_at entry_a)))) eq_refl)).
  - apply (proj1 (proj1 (proj2
        (constructor_fails_unless_computed "" (fun u : string => u)
           (Some config_computed) (host_at entry_a))))).
    reflexivity.
Defined.

(** C10 on a code that is neither of the two. *)
Lemma navigation_cancel_other_code_is_no_op_witness :
  Some (OtherCancellationCode 1) <> Some GuardRejected /\
  Some (OtherCancellationCode 1) <> Some NoDataFromResolver /\
  handleRouterEvent ex_serialize ex_merge (host_at entry_b)
    (NavigationCancel (Some (OtherCancellationCode 1))) 1 transition_a_b manager_a
    = Some (manager_a, []).
Proof.
  assert (H1 : Some (OtherCancellationCode 1) <> Some GuardRejected) by discriminate.
  assert (H2 : Some (OtherCancellationCode 1) <> Some NoDataFromResolver) by discriminate.
  split; [exact H1 |]. split; [exact H2 |].
  exact (proj1 (navigation_cancel_other_code_is_no_op ex_serialize ex_merge
                  (host_at entry_b) 1 transition_a_b manager_a
                  (Some (OtherCancellationCode 1)) H1 H2)).
Defined.


(** C5, counterexample to the claim as stated: the rollback calls of a
    cancellation carry the string ['rollback'], which has no [intercept]
    property, on the traversal and on the replace-navigate. *)
Lemma rollback_call_without_intercept_counterexample :
  handleRouterEvent ex_serialize ex_merge (host_at entry_b)
    (NavigationCancel (Some GuardRejected)) 1 transition_a_b manager_a
    = Some (manager_a,
            [Call (RejectHandler 0);
             Navigation_traverseTo "slot-1" (InfoString "rollback")]) /\
  @call_info string (Navigation_traverseTo "slot-1" (InfoString "rollback"))
    = Some (InfoString "rollback") /\
  snd (cancel ex_serialize ex_merge (host_at entry_a_replaced) transition_a_b false manager_a)
    = [Call (RejectHandler 0);
       Navigation_navigate "/a"
         {| opt_state := Some [("navigationId", "1")];
            opt_history := Replace;
            opt_info := InfoString "rollback" |}] /\
  info_prop intercept (InfoString "rollback") <> Some true.
Proof.
  split; [reflexivity |]. split; [reflexivity |]. split; [reflexivity |]. discriminate.
Qed.

Lemma native_calls_intercept_or_rollback_witness :
  handleRouterEvent ex_serialize ex_merge (host_at entry_a) RoutesRecognized 1
    transition_a_b manager_a
    = Some (manager_a,
            [Navigation_navigate "/b"
               {| opt_state := Some []; opt_history := Push; opt_info := info_for 1 |}]) /\
  info_prop intercept (info_for 1) = Some true.
Proof.
  assert (H : handleRouterEvent ex_serialize ex_merge (host_at entry_a) RoutesRecognized 1
                transition_a_b manager_a
              = Some (manager_a,
                      [Navigation_navigate "/b"
                         {| opt_state := Some []; opt_history := Push;
                            opt_info := info_for 1 |}])) by reflexivity.
  split; [exact H |].
  destruct (proj1 (@native_calls_intercept_or_rollback string string string
                     ex_serialize ex_merge)
              (host_at entry_a) RoutesRecognized 1 transition_a_b manager_a manager_a _
              _ (info_for 1) H (or_introl eq_refl) eq_refl)
    as [[_ Hi] | [He _]].
  - exact Hi.
  - discriminate He.
Defined.

(** C6 at the failing input.  A cancellation in the slot of
    [activeHistoryEntry] issues the replace-navigate with the string
    ['rollback'] as metadata; the navigate event records it; on the entry
    change that follows, with the new current entry [entry_a_rolled_back],
    [info.rollback] of the string is [undefined] and [activeHistoryEntry]
    stays [entry_a]. *)
Theorem rollback_metadata_is_not_recognised :
  exists this1 o this2,
    handleRouterEvent ex_serialize ex_merge (host_at entry_a_replaced)
      (NavigationCancel (Some GuardRejected)) 1 transition_a_b manager_a
      = Some (this1, [Call (RejectHandler 0); Navigation_navigate "/a" o]) /\
    opt_info o = InfoString "rollback" /\
    info_prop rollback (opt_info o) = None /\
    handleNavigate {| event_id := 1; event_info := opt_info o; canIntercept := true |}
      ({[ 1 := transition_a_b ]}) this1
      = (this2, {[ 1 := transition_a_b ]}, [], Normal) /\
    info this2 = InfoString "rollback" /\
    handleCurrentEntryChange (host_at entry_a_rolled_back) this2 = (this2, []) /\
    activeHistoryEntry this2 = entry_a /\
    navigation_currentEntry (host_at entry_a_rolled_back) <> entry_a.
Proof.
  do 3 eexists.
  split; [reflexivity |]. split; [reflexivity |]. split; [reflexivity |].
  split; [reflexivity |]. split; [reflexivity |]. split; [reflexivity |].
  split; [reflexivity | discriminate].
Qed.

(** C7 with two listeners subscribed: without metadata both are called with
    the current entry's URL and state; with recorded metadata none is. *)
Lemma entry_change_without_metadata_witness :
  info manager_a = InfoUndefined /\
  handleCurrentEntryChange (host_at entry_a) manager_a
    = (manager_a,
       [Listener 7 "/a" (Some [("navigationId", "1")]);
        Listener 8 "/a" (Some [("navigationId", "1")])]) /\
  info_truthy (info (set_info (info_for 1) manager_a)) = true /\
  ~ In (Listener 7 "/a" (Some [("navigationId", "1")]))
       (snd (handleCurrentEntryChange (host_at entry_a)
               (set_info (info_for 1) manager_a))).
Proof.
  split; [reflexivity |]. split.
  - exact (proj1 (proj1 (entry_change_without_metadata (host_at entry_a) manager_a)
                    eq_refl)).
  - split; [reflexivity |].
    exact (proj1 (proj2 (entry_change_without_metadata (host_at entry_a)
                           (set_info (info_for 1) manager_a)))
             eq_refl 7 "/a" (Some [("navigationId", "1")])).
Defined.

(** C8 on the transition from [/a] to [/b], with three router events between
    [RoutesRecognized] and [BeforeActivateRoutes]. *)
Lemma deferred_commit_at_pre_activation_witness :
  urlUpdateStrategy (manager system_a) = "deferred" /\
  transitions system_a !! 1 = Some transition_a_b /\
  skipLocationChange (extras transition_a_b) = false /\
  finalUrl transition_a_b = Some "/b" /\
  exists s1 s2 o io,
    system_step ex_serialize ex_merge RoutesRecognized 1 system_a
      = Some (s1, [Navigation_navigate "/b" o; Event_intercept 0 io]) /\
    info_prop deferredCommit (opt_info o) = Some true /\
    io_commit io = Some AfterTransition /\
    visibleUrl (platform s1) = "/a" /\
    system_run ex_serialize ex_merge [OtherEvent; OtherEvent; OtherEvent] 1 s1
      = Some (s1, []) /\
    system_step ex_serialize ex_merge BeforeActivateRoutes 1 s1
      = Some (s2, [Call (CommitEvent 0)]) /\
    visibleUrl (platform s2) = "/b".
Proof.
  assert (H1 : urlUpdateStrategy (manager system_a) = "deferred") by reflexivity.
  assert (H2 : transitions system_a !! 1 = Some transition_a_b)
    by (vm_compute; reflexivity).
  assert (H3 : skipLocationChange (extras transition_a_b) = false) by reflexivity.
  assert (H4 : finalUrl transition_a_b = Some "/b") by reflexivity.
  repeat (split; [assumption |]).
  destruct (deferred_commit_at_pre_activation ex_serialize ex_merge system_a 1
              transition_a_b "/b" 3 H1 H2 H3 H4)
    as (s1 & s2 & o & io & Hrr & Hdef & Hcommit & _ & Hsame & Hbetween & Hbar & Hurl & _).
  exists s1, s2, o, io.
  split; [exact Hrr |]. split; [exact Hdef |]. split; [exact Hcommit |].
  split; [exact Hsame |]. split; [exact Hbetween |]. split; [exact Hbar | exact Hurl].
Defined.

(** ** Further properties of the methods *)

Section Further.

Context {UrlTree RouterState JsValue : Type}.
Variable serialize : UrlTree -> string.
Variable merge : UrlTree -> UrlTree -> UrlTree.

Implicit Types (h : @Host JsValue) (t : @Navigation UrlTree JsValue)
  (this : @NavigationStateManager UrlTree RouterState JsValue)
  (r : TransitionRef) (w : @World UrlTree RouterState JsValue).

(** *** Cancellation *)

Lemma cancel_frame h t (b : bool) this :
  activeHistoryEntry (fst (cancel serialize merge h t b this)) = activeHistoryEntry this /\
  stateMemento (fst (cancel serialize merge h t b this)) = stateMemento this /\
  info (fst (cancel serialize merge h t b this)) = info this /\
  nonRouterCurrentEntryChangeSubject (fst (cancel serialize merge h t b this))
    = nonRouterCurrentEntryChangeSubject this /\
  urlUpdateStrategy (fst (cancel serialize merge h t b this)) = urlUpdateStrategy this /\
  canceledNavigationResolution (fst (cancel serialize merge h t b this))
    = canceledNavigationResolution this.
Proof.
  unfold cancel.
  destruct (negb _); [destruct (negb _) |]; now repeat split.
Qed.

(** Every field but the three of the memento, [activeHistoryEntry] and the
    memento itself is left alone by [handleRouterEvent]. *)
Lemma handleRouterEvent_frame h (e : Event) r t this this' calls :
  handleRouterEvent serialize merge h e r t this = Some (this', calls) ->
  info this' = info this /\
  nonRouterCurrentEntryChangeSubject this' = nonRouterCurrentEntryChangeSubject this /\
  urlUpdateStrategy this' = urlUpdateStrategy this /\
  canceledNavigationResolution this' = canceledNavigationResolution this.
Proof.
  intros He.
  destruct e; cbn [handleRouterEvent] in He.
  - inversion He. now repeat split.
  - inversion He. now repeat split.
  - destruct (negb _); [destruct (finalUrl t); [| discriminate] |];
      inversion He; now repeat split.
  - inversion He. now repeat split.
  - destruct (code_triggers_cancel code); inversion He as [Hc]; [| now repeat split].
    destruct (cancel_frame h t false this) as (_ & _ & H1 & H2 & H3 & H4).
    rewrite Hc in H1, H2, H3, H4. now repeat split.
  - inversion He as [Hc].
    destruct (cancel_frame h t true this) as (_ & _ & H1 & H2 & H3 & H4).
    rewrite Hc in H1, H2, H3, H4. now repeat split.
  - inversion He. now repeat split.
  - inversion He. now repeat split.
Qed.

(** X1.  Once [NavigationEnd] has recorded the current native entry, a
    cancellation or error that finds the same entry current only calls the
    transition's [cancel] callback: it issues no native call and leaves the
    manager as it is. *)
Theorem cancel_after_navigation_end h (e : Event) r r' t t' this :
  runs_cancel e = true ->
  exists this1,
    handleRouterEvent serialize merge h NavigationEnd r t this = Some (this1, []) /\
    activeHistoryEntry this1 = navigation_currentEntry h /\
    handleRouterEvent serialize merge h e r' t' this1
      = Some (this1, call_optional (nav_cancel t')).
Proof.
  intros He. exists (set_activeHistoryEntry (navigation_currentEntry h) this).
  split; [reflexivity |]. split; [reflexivity |].
  destruct (runs_cancel_spec serialize merge h e r' t'
              (set_activeHistoryEntry (navigation_currentEntry h) this) He) as [b ->].
  f_equal. now apply cancel_same_id.
Qed.

(** X2.  In every branch [cancel] first calls the transition's [cancel]
    callback, when there is one, and then makes at most one call, a native
    navigation tagged ['rollback']; it makes none exactly when the current
    native entry has the [id] of [activeHistoryEntry].  It never writes
    [activeHistoryEntry], the memento, the recorded metadata, the subscribers
    or the configuration. *)
Theorem cancel_calls_and_frame h t (b : bool) this :
  (exists rest,
     snd (cancel serialize merge h t b this) = call_optional (nav_cancel t) ++ rest /\
     length rest <= 1 /\
     (forall c, In c rest -> call_info c = Some (InfoString "rollback")) /\
     (rest = [] <->
      entry_id (navigation_currentEntry h) = entry_id (activeHistoryEntry this))) /\
  activeHistoryEntry (fst (cancel serialize merge h t b this)) = activeHistoryEntry this /\
  stateMemento (fst (cancel serialize merge h t b this)) = stateMemento this /\
  info (fst (cancel serialize merge h t b this)) = info this /\
  nonRouterCurrentEntryChangeSubject (fst (cancel serialize merge h t b this))
    = nonRouterCurrentEntryChangeSubject this /\
  urlUpdateStrategy (fst (cancel serialize merge h t b this)) = urlUpdateStrategy this /\
  canceledNavigationResolution (fst (cancel serialize merge h t b this))
    = canceledNavigationResolution this.
Proof.
  split; [| apply cancel_frame].
  unfold cancel.
  destruct (String.eqb_spec (entry_id (navigation_currentEntry h))
              (entry_id (activeHistoryEntry this))) as [Hid | Hid]; cbn [negb].
  - exists []. rewrite app_nil_r. repeat split; auto. intros c [].
  - destruct (negb (entry_key (navigation_currentEntry h)
                    =? entry_key (activeHistoryEntry this))%string);
      eexists; (split; [reflexivity |]);
      (split; [cbn; lia |]);
      (split; [intros c [<- | []]; reflexivity |]);
      (split; [discriminate | contradiction]).
Qed.

(** *** What each input may change *)

Lemma feed_state_or_memento h (i : Input) w w' :
  feed serialize merge h i w = Some w' ->
  (routerState (fst w') = routerState (fst w) /\
   currentUrlTree (fst w') = currentUrlTree (fst w)) \/
  ((exists e r, i = RouterInput e r /\ runs_cancel e = true) /\
   routerState (fst w') = memento_routerState (stateMemento (fst w)) /\
   currentUrlTree (fst w') = memento_currentUrlTree (stateMemento (fst w))).
Proof.
  intros H. destruct i as [e r | r t | n]; cbn [feed] in H.
  - destruct (snd w !! r) as [t |]; [| discriminate].
    destruct (handleRouterEvent serialize merge h e r t (fst w)) as [[this calls] |] eqn:He;
      [| discriminate].
    inversion H; subst w'; clear H. cbn [fst].
    destruct (runs_cancel e) eqn:Hc.
    + destruct (runs_cancel_spec serialize merge h e r t (fst w) Hc) as [b Hb].
      rewrite Hb in He. inversion He as [Hcancel]. clear He Hb.
      unfold cancel in Hcancel.
      destruct (negb (entry_id (navigation_currentEntry h)
                      =? entry_id (activeHistoryEntry (fst w)))%string);
        [destruct (negb (entry_key (navigation_currentEntry h)
                         =? entry_key (activeHistoryEntry (fst w)))%string) |];
        inversion Hcancel; subst; try (left; now split).
      right. split; [eauto |]. now split.
    + left. destruct e; cbn [handleRouterEvent runs_cancel] in He, Hc.
      * inversion He. now split.
      * inversion He. now split.
      * destruct (negb _); [destruct (finalUrl t); [| discriminate] |];
          inversion He; now split.
      * inversion He. now split.
      * rewrite Hc in He. inversion He. now split.
      * discriminate.
      * inversion He. now split.
      * inversion He. now split.
  - inversion H. left. now split.
  - inversion H. left.
    destruct (deliver_frame h n w) as [Hf _].
    pose proof (f_equal memento_routerState Hf) as Hrs.
    pose proof (f_equal memento_currentUrlTree Hf) as Hcur.
    now split.
Qed.

(** X3.  The router state and the current URL tree move together: an input
    either leaves both as they are, or it is a cancellation or error and both
    become those of the memento. *)
Theorem router_state_and_url_move_together h (i : Input) w w' :
  feed serialize merge h i w = Some w' ->
  (routerState (fst w') = routerState (fst w) /\
   currentUrlTree (fst w') = currentUrlTree (fst w)) \/
  ((exists e r, i = RouterInput e r /\ runs_cancel e = true) /\
   routerState (fst w') = memento_routerState (stateMemento (fst w)) /\
   currentUrlTree (fst w') = memento_currentUrlTree (stateMemento (fst w))).
Proof. apply feed_state_or_memento. Qed.

(** X4.  [activeHistoryEntry] changes only on [NavigationEnd] and on an entry
    change whose recorded metadata has a truthy [rollback] property, and then
    it becomes the current native entry. *)
Theorem active_entry_changes_only_on_end_or_rollback h (i : Input) w w' :
  feed serialize merge h i w = Some w' ->
  activeHistoryEntry (fst w') <> activeHistoryEntry (fst w) ->
  activeHistoryEntry (fst w') = navigation_currentEntry h /\
  ((exists r, i = RouterInput NavigationEnd r) \/
   (i = NativeInput CurrentEntryChangeFired /\
    truthy (info_prop rollback (info (fst w))) = true)).
Proof.
  intros H Hne. destruct i as [e r | r t | n]; cbn [feed] in H.
  - destruct (snd w !! r) as [t |]; [| discriminate].
    destruct (handleRouterEvent serialize merge h e r t (fst w)) as [[this calls] |] eqn:He;
      [| discriminate].
    inversion H; subst w'; clear H. cbn [fst] in *.
    destruct e; cbn [handleRouterEvent] in He.
    + inversion He; subst. contradiction.
    + inversion He; subst. contradiction.
    + destruct (negb _); [destruct (finalUrl t); [| discriminate] |];
        inversion He; subst; contradiction.
    + inversion He; subst. contradiction.
    + destruct (code_triggers_cancel code); inversion He as [Hc]; subst;
        [| contradiction].
      exfalso. apply Hne.
      rewrite <- (proj1 (cancel_frame h t false (fst w))).
      now rewrite Hc.
    + inversion He as [Hc]. exfalso. apply Hne.
      rewrite <- (proj1 (cancel_frame h t true (fst w))).
      now rewrite Hc.
    + inversion He; subst. split; [reflexivity | eauto].
    + inversion He; subst. contradiction.
  - inversion H; subst. contradiction.
  - inversion H; subst w'; clear H. destruct n as [event |]; cbn [deliver fst] in *.
    + destruct (handleNavigate_manager event (snd w) (fst w)) as (s' & c & k & Hn).
      rewrite Hn in Hne. contradiction.
    + unfold handleCurrentEntryChange in *.
      destruct (negb (info_truthy (info (fst w)))); [contradiction |].
      destruct (truthy (info_prop rollback (info (fst w)))); [| contradiction].
      split; [reflexivity | right; now split].
Qed.

(** X5.  The recorded metadata is always that of the last navigate event:
    the navigate handler records it whether or not it claims the event, and no
    other input writes it. *)
Theorem info_is_last_navigate_metadata (l : list (@Host JsValue * Input)) w w' :
  feed_all serialize merge l w = Some w' ->
  info (fst w') = last_navigate_info l (info (fst w)).
Proof.
  revert w. induction l as [| [h i] l IH]; intros w H; cbn [feed_all] in H.
  - now inversion H.
  - destruct (feed serialize merge h i w) as [w1 |] eqn:Hf; [| discriminate].
    rewrite (IH w1 H). clear IH H.
    destruct i as [e r | r t | [event |]]; cbn [feed last_navigate_info] in *.
    + destruct (snd w !! r) as [t |]; [| discriminate].
      destruct (handleRouterEvent serialize merge h e r t (fst w))
        as [[this calls] |] eqn:He; [| discriminate].
      inversion Hf; subst w1; clear Hf. cbn [fst]. f_equal.
      eapply handleRouterEvent_frame. exact He.
    + now inversion Hf.
    + inversion Hf; subst w1. cbn [deliver].
      destruct (handleNavigate_manager event (snd w) (fst w)) as (s' & c & k & ->).
      reflexivity.
    + inversion Hf; subst w1. cbn [deliver fst]. f_equal.
      apply handleCurrentEntryChange_frame.
Qed.

Lemma deliver_config h (n : NativeEvent) w :
  nonRouterCurrentEntryChangeSubject (fst (deliver h n w))
    = nonRouterCurrentEntryChangeSubject (fst w) /\
  urlUpdateStrategy (fst (deliver h n w)) = urlUpdateStrategy (fst w) /\
  canceledNavigationResolution (fst (deliver h n w)) = canceledNavigationResolution (fst w).
Proof.
  destruct n as [event |]; cbn [deliver].
  - destruct (handleNavigate_manager event (snd w) (fst w)) as (s' & c & k & ->).
    now repeat split.
  - cbn [fst]. unfold handleCurrentEntryChange.
    destruct (negb _); [| destruct (truthy _)]; now repeat split.
Qed.

(** X6.  No sequence of router events, writes to transitions and native
    events changes the subscribed listeners or the two configuration values
    read at construction. *)
Theorem events_keep_subscribers_and_configuration
    (l : list (@Host JsValue * Input)) w w' :
  feed_all serialize merge l w = Some w' ->
  nonRouterCurrentEntryChangeSubject (fst w') = nonRouterCurrentEntryChangeSubject (fst w) /\
  urlUpdateStrategy (fst w') = urlUpdateStrategy (fst w) /\
  canceledNavigationResolution (fst w') = canceledNavigationResolution (fst w).
Proof.
  revert w. induction l as [| [h i] l IH]; intros w H; cbn [feed_all] in H.
  - inversion H. now repeat split.
  - destruct (feed serialize merge h i w) as [w1 |] eqn:Hf; [| discriminate].
    destruct (IH w1 H) as (H1 & H2 & H3). rewrite H1, H2, H3. clear IH H H1 H2 H3.
    destruct i as [e r | r t | n]; cbn [feed] in Hf.
    + destruct (snd w !! r) as [t |]; [| discriminate].
      destruct (handleRouterEvent serialize merge h e r t (fst w))
        as [[this calls] |] eqn:He; [| discriminate].
      inversion Hf; subst w1. cbn [fst].
      destruct (handleRouterEvent_frame h e r t (fst w) this calls He) as (_ & ? & ? & ?).
      now repeat split.
    + inversion Hf. now repeat split.
    + inversion Hf. apply deliver_config.
Qed.

(** *** The navigate handler *)

(** X7.  [handleNavigate] always records the event's metadata.  It calls
    [event.intercept], once, exactly when the event can be intercepted, the
    metadata has a truthy [intercept] and no error is thrown; the options
    carry the [focusReset] and [scroll] of the metadata and ask for
    [commit: 'after-transition'] exactly when [deferredCommit] is truthy.  It
    throws only when a deferred commit is requested and the metadata names no
    transition, and then the transitions are untouched. *)
Theorem navigate_event_claimed_iff (event : NavigateEvent)
    (store store' : gmap TransitionRef (@Navigation UrlTree JsValue))
    this this' (calls : list (@Effect JsValue)) (completion : Completion) :
  handleNavigate event store this = (this', store', calls, completion) ->
  this' = set_info (event_info event) this /\
  (calls = [] \/
   exists o,
     calls = [Event_intercept (event_id event) o] /\
     io_focusReset o = info_prop focusReset (event_info event) /\
     io_scroll o = info_prop scroll (event_info event) /\
     io_handler o = BindFinishCancel (info_prop transition (event_info event)) /\
     io_commit o = (if truthy (info_prop deferredCommit (event_info event))
                    then Some AfterTransition else None)) /\
  (calls <> [] <->
   canIntercept event = true /\
   truthy (info_prop intercept (event_info event)) = true /\
   completion = Normal) /\
  (completion <> Normal ->
   store' = store /\
   truthy (info_prop deferredCommit (event_info event)) = true /\
   (info_prop transition (event_info event) ≫= (fun r => store !! r)) = None).
Proof.
  unfold handleNavigate.
  destruct (canIntercept event); cbn [andb].
  2:{ intros H; inversion H; subst. repeat split; auto; try tauto.
      intros (Hc & _); discriminate. }
  destruct (truthy (info_prop intercept (event_info event))).
  2:{ intros H; inversion H; subst. repeat split; auto; try tauto.
      intros (_ & Hc & _); discriminate. }
  destruct (truthy (info_prop deferredCommit (event_info event))).
  - destruct (info_prop transition (event_info event)) as [r' |] eqn:Ht.
    + destruct (store !! r') as [t' |] eqn:Hs; intros H; inversion H; subst.
      * split; [reflexivity |]. split; [right; eexists; now repeat split |].
        split; [split; [now repeat split | discriminate] |]. contradiction.
      * split; [reflexivity |]. split; [now left |].
        split; [split; [contradiction | intros (_ & _ & Hc); discriminate] |].
        intros _. cbn. now rewrite Hs.
    + intros H; inversion H; subst.
      split; [reflexivity |]. split; [now left |].
      split; [split; [contradiction | intros (_ & _ & Hc); discriminate] |].
      intros _. now repeat split.
  - intros H; inversion H; subst.
    split; [reflexivity |]. split; [right; eexists; now repeat split |].
    split; [split; [now repeat split | discriminate] |]. contradiction.
Qed.

(** X8.  The only write of [handleNavigate] to a transition is [commitUrl] of
    the transition named by the metadata, which it binds to [event.commit()]
    of this event, and only when it claims the event: every other transition
    and every other property is as before. *)
Theorem navigate_event_writes_only_commitUrl (event : NavigateEvent)
    (store store' : gmap TransitionRef (@Navigation UrlTree JsValue))
    this this' (calls : list (@Effect JsValue)) (completion : Completion) :
  handleNavigate event store this = (this', store', calls, completion) ->
  (forall r', info_prop transition (event_info event) <> Some r' ->
              store' !! r' = store !! r') /\
  (forall r', set_commitUrl None <$> store' !! r' = set_commitUrl None <$> store !! r') /\
  (store' = store \/
   exists r0 t0,
     info_prop transition (event_info event) = Some r0 /\
     store !! r0 = Some t0 /\
     store' !! r0 = Some (set_commitUrl (Some (CommitEvent (event_id event))) t0) /\
     calls <> [] /\
     truthy (info_prop deferredCommit (event_info event)) = true).
Proof.
  unfold handleNavigate.
  destruct (canIntercept event && truthy (info_prop intercept (event_info event)));
    [| intros H; inversion H; subst; now repeat split; auto].
  destruct (truthy (info_prop deferredCommit (event_info event)));
    [| intros H; inversion H; subst; now repeat split; auto].
  destruct (info_prop transition (event_info event)) as [r0 |];
    [| intros H; inversion H; subst; now repeat split; auto].
  destruct (store !! r0) as [t0 |] eqn:Hs;
    [| intros H; inversion H; subst; now repeat split; auto].
  intros H; inversion H; subst. split; [| split].
  - intros r' Hr. apply lookup_insert_ne. congruence.
  - intros r'. destruct (decide (r0 = r')) as [<- | Hne].
    + rewrite lookup_insert_eq, Hs. reflexivity.
    + now rewrite lookup_insert_ne.
  - right. exists r0, t0. rewrite lookup_insert_eq. now repeat split.
Qed.

(** *** Listeners *)

Lemma registerAll_fields (listeners : list nat) this :
  nonRouterCurrentEntryChangeSubject (registerAll listeners this)
    = nonRouterCurrentEntryChangeSubject this ++ listeners /\
  info (registerAll listeners this) = info this /\
  createStateMemento (registerAll listeners this) = createStateMemento this /\
  activeHistoryEntry (registerAll listeners this) = activeHistoryEntry this /\
  stateMemento (registerAll listeners this) = stateMemento this.
Proof.
  unfold registerAll. revert this.
  induction listeners as [| l listeners IH]; intros this; cbn [fold_left].
  - rewrite app_nil_r. now repeat split.
  - destruct (IH (registerNonRouterCurrentEntryChangeListener l this))
      as (H1 & H2 & H3 & H4 & H5).
    rewrite H1, H2, H3, H4, H5. cbn. rewrite <- app_assoc. now repeat split.
Qed.

(** X9.  Listeners are called in the order of their registration, after
    those subscribed before, each once per registration, and registering
    touches no router-owned field. *)
Theorem listeners_called_in_subscription_order h this (listeners : list nat) :
  info this = InfoUndefined ->
  snd (handleCurrentEntryChange h (registerAll listeners this))
    = snd (handleCurrentEntryChange h this) ++
      map (fun l => Listener l (entry_url (navigation_currentEntry h))
                      (entry_getState (navigation_currentEntry h)))
          listeners /\
  createStateMemento (registerAll listeners this) = createStateMemento this /\
  activeHistoryEntry (registerAll listeners this) = activeHistoryEntry this /\
  stateMemento (registerAll listeners this) = stateMemento this.
Proof.
  intros Hi.
  destruct (registerAll_fields listeners this) as (H1 & H2 & H3 & H4 & H5).
  split; [| now repeat split].
  unfold handleCurrentEntryChange, emit. rewrite H2, Hi, H1. cbn [info_truthy negb snd].
  apply List.map_app.
Qed.

(** X10.  A navigate event without metadata is never claimed and writes no
    transition; the entry change that follows calls every subscribed listener
    with the current entry's URL and state and leaves the router-owned fields
    alone, whatever metadata an earlier navigation had recorded. *)
Theorem external_navigation_notifies_listeners (event : NavigateEvent)
    (store : gmap TransitionRef (@Navigation UrlTree JsValue)) this h :
  event_info event = InfoUndefined ->
  exists this1,
    handleNavigate event store this = (this1, store, [], Normal) /\
    handleCurrentEntryChange h this1
      = (this1,
         map (fun l => Listener l (entry_url (navigation_currentEntry h))
                         (entry_getState (navigation_currentEntry h)))
             (nonRouterCurrentEntryChangeSubject this)) /\
    createStateMemento this1 = createStateMemento this /\
    activeHistoryEntry this1 = activeHistoryEntry this /\
    stateMemento this1 = stateMemento this.
Proof.
  intros Hi. exists (set_info InfoUndefined this).
  unfold handleNavigate. rewrite Hi. cbn [info_prop truthy andb].
  rewrite andb_false_r. now repeat split.
Qed.

(** *** Restoring and constructing *)

(** X11.  For a transition with a [finalUrl], restoring from the memento is
    idempotent: a second [resetInternalState] changes nothing. *)
Theorem resetInternalState_idempotent t this (u : UrlTree) :
  finalUrl t = Some u ->
  resetInternalState merge t (resetInternalState merge t this)
    = resetInternalState merge t this.
Proof.
  intros Hu. unfold resetInternalState. rewrite Hu. reflexivity.
Qed.

Section Constructed.

Variable emptyUrlTree : UrlTree.
Variable createEmptyState : UrlTree -> RouterState.

(** X12.  A manager that was constructed is at rest: both URL trees are the
    empty tree, the memento is the snapshot of the live fields,
    [activeHistoryEntry] is the current native entry, nothing is recorded or
    subscribed, the URL update strategy is ['deferred'] unless configured; a
    cancellation then rolls nothing back and an entry change calls no one. *)
Theorem constructed_manager_is_at_rest (config : option RouterConfig) h this
    (calls : list (@Effect JsValue)) :
  constructor emptyUrlTree createEmptyState config h = Built this calls ->
  canceledNavigationResolution this = "computed" /\
  urlUpdateStrategy this = or_else (config_urlUpdateStrategy (options_of config)) "deferred" /\
  getCurrentUrlTree this = emptyUrlTree /\
  getRawUrlTree this = emptyUrlTree /\
  getRouterState this = createEmptyState emptyUrlTree /\
  stateMemento this = createStateMemento this /\
  activeHistoryEntry this = navigation_currentEntry h /\
  info this = InfoUndefined /\
  nonRouterCurrentEntryChangeSubject this = [] /\
  (forall t (b : bool),
     cancel serialize merge h t b this = (this, call_optional (nav_cancel t))) /\
  handleCurrentEntryChange h this = (this, []).
Proof.
  unfold constructor.
  destruct (String.eqb_spec
              (canceledNavigationResolution
                 (initial_fields emptyUrlTree createEmptyState config h)) "computed")
    as [Hc | Hc]; cbn [negb]; [| discriminate].
  intros H; inversion H; subst this calls; clear H.
  split; [exact Hc |]. repeat (split; [reflexivity |]).
  split; [| reflexivity].
  intros t b. now apply cancel_same_id.
Qed.

End Constructed.


(** *** With the native surface *)

Lemma system_step_routes_recognized
    (s : @System UrlTree RouterState JsValue) r t (final : UrlTree) :
  transitions s !! r = Some t ->
  skipLocationChange (extras t) = false ->
  finalUrl t = Some final ->
  let d := String.eqb (urlUpdateStrategy (manager s)) "deferred" in
  let path := serialize (merge final (initialUrl t)) in
  let ev := platform_counter (platform s) in
  exists s1 o io,
    system_step serialize merge RoutesRecognized r s
      = Some (s1, [Navigation_navigate path o; Event_intercept ev io]) /\
    opt_info o = InfoObject {| intercept := Some true; focusReset := Some Manual;
                               scroll := None; deferredCommit := Some d;
                               transition := Some r; rollback := None |} /\
    io_commit io = (if d then Some AfterTransition else None) /\
    info (manager s1) = opt_info o /\
    createStateMemento (manager s1) = createStateMemento (manager s) /\
    activeHistoryEntry (manager s1) = activeHistoryEntry (manager s) /\
    transitions s1 !! r
      = Some (set_finish_cancel ev
                (if d then set_commitUrl (Some (CommitEvent ev)) t else t)) /\
    (d = true ->
     platform_currentEntry (platform s1) = platform_currentEntry (platform s) /\
     platform_entries (platform s1) = platform_entries (platform s) /\
     exists n, platform_pending (platform s1) = n :: platform_pending (platform s) /\
               pending_event n = ev) /\
    (d = false ->
     visibleUrl (platform s1) = path /\
     platform_pending (platform s1) = platform_pending (platform s)).
Proof.
  intros Ht Hskip Hfinal d path ev.
  unfold system_step. rewrite Ht. cbn [handleRouterEvent].
  rewrite Hskip, Hfinal. cbn [negb]. fold d.
  unfold navigate. fold path. cbn [react_all react opt_state opt_history opt_info].
  unfold native_navigation. cbn [platform transitions manager].
  unfold handleNavigate.
  cbn [event_info canIntercept info_prop intercept deferredCommit transition truthy andb event_id focusReset scroll].
  destruct d.
  - rewrite Ht. cbn [intercepted io_handler io_commit run_handler].
    cbn [platform_entries platform_currentEntry platform_pending platform_counter app].
    fold ev. do 3 eexists. split; [reflexivity |].
    cbn [opt_info io_commit manager transitions platform info set_info].
    do 5 (split; [reflexivity |]).
    split; [rewrite lookup_alter_eq, lookup_insert_eq; reflexivity |].
    split; [| discriminate].
    intros _. split; [reflexivity |]. split; [reflexivity |].
    eexists. split; reflexivity.
  - cbn [intercepted io_handler io_commit run_handler].
    unfold fire_currententrychange, handleCurrentEntryChange.
    cbn [manager platform transitions info set_info info_truthy negb info_prop rollback truthy
         app fst snd].
    fold ev. do 3 eexists. split; [reflexivity |].
    cbn [opt_info io_commit manager transitions platform info set_info].
    do 5 (split; [reflexivity |]).
    split; [rewrite lookup_alter_eq, Ht; reflexivity |].
    split; [discriminate |].
    intros _. split; reflexivity.
Qed.

(** X13.  With a URL update strategy other than ['deferred'], on a
    transition that does not skip the location change: the navigate call of
    [RoutesRecognized] carries [deferredCommit = false], the event is claimed
    without a [commit] option and the transition's [commitUrl] is left as it
    was; the URL is visible at once, and the entry change it causes calls no
    listener.  [BeforeActivateRoutes] then calls nothing when the transition
    had no [commitUrl]. *)
Theorem eager_commit_at_routes_recognized
    (s : @System UrlTree RouterState JsValue) r t (final : UrlTree) :
  urlUpdateStrategy (manager s) <> "deferred" ->
  transitions s !! r = Some t ->
  skipLocationChange (extras t) = false ->
  finalUrl t = Some final ->
  let path := serialize (merge final (initialUrl t)) in
  let ev := platform_counter (platform s) in
  exists s1 o io,
    system_step serialize merge RoutesRecognized r s
      = Some (s1, [Navigation_navigate path o; Event_intercept ev io]) /\
    info_prop deferredCommit (opt_info o) = Some false /\
    io_commit io = None /\
    visibleUrl (platform s1) = path /\
    platform_pending (platform s1) = platform_pending (platform s) /\
    (transitions s1 !! r) ≫= nav_commitUrl = nav_commitUrl t /\
    (nav_commitUrl t = None ->
     system_step serialize merge BeforeActivateRoutes r s1 = Some (s1, [])).
Proof.
  intros Hdef Ht Hskip Hfinal path ev.
  destruct (system_step_routes_recognized s r t final Ht Hskip Hfinal)
    as (s1 & o & io & Hstep & Hinfo & Hcommit & _ & _ & _ & Hlook & _ & Heager).
  apply String.eqb_neq in Hdef. rewrite Hdef in Hinfo, Hcommit, Hlook, Heager.
  destruct (Heager eq_refl) as [Hurl Hpending].
  exists s1, o, io. split; [exact Hstep |].
  split; [now rewrite Hinfo |]. split; [exact Hcommit |].
  split; [exact Hurl |]. split; [exact Hpending |].
  split; [now rewrite Hlook |].
  intros Hnone. unfold system_step. rewrite Hlook.
  cbn [handleRouterEvent set_finish_cancel nav_commitUrl]. rewrite Hnone.
  cbn [call_optional react_all]. now destruct s1.
Qed.

(** X14.  With the deferred strategy, a transition whose navigation waits
    for its commit and is then cancelled (or fails) while [activeHistoryEntry]
    still has the [id] of the current native entry: the only call of the
    cancellation is the [reject] stored by the intercept handler, the waiting
    navigation is given up, and the current native entry, the entries, the
    three router-owned fields and [activeHistoryEntry] are as before the
    transition. *)
Theorem cancel_before_commit_changes_nothing
    (s : @System UrlTree RouterState JsValue) r t (final : UrlTree) (e : Event) :
  urlUpdateStrategy (manager s) = "deferred" ->
  transitions s !! r = Some t ->
  skipLocationChange (extras t) = false ->
  finalUrl t = Some final ->
  runs_cancel e = true ->
  entry_id (platform_currentEntry (platform s))
    = entry_id (activeHistoryEntry (manager s)) ->
  let path := serialize (merge final (initialUrl t)) in
  let ev := platform_counter (platform s) in
  exists s1 s2 o io,
    system_step serialize merge RoutesRecognized r s
      = Some (s1, [Navigation_navigate path o; Event_intercept ev io]) /\
    system_step serialize merge e r s1 = Some (s2, [Call (RejectHandler ev)]) /\
    platform_currentEntry (platform s2) = platform_currentEntry (platform s) /\
    platform_entries (platform s2) = platform_entries (platform s) /\
    platform_pending (platform s2) = platform_pending (platform s) /\
    createStateMemento (manager s2) = createStateMemento (manager s) /\
    activeHistoryEntry (manager s2) = activeHistoryEntry (manager s).
Proof.
  intros Hdef Ht Hskip Hfinal He Hid path ev. subst path ev.
  destruct (system_step_routes_recognized s r t final Ht Hskip Hfinal)
    as (s1 & o & io & Hstep & _ & _ & _ & Hm & Ha & Hlook & Hdeferred & _).
  rewrite Hdef, String.eqb_refl in Hlook, Hdeferred.
  destruct (Hdeferred eq_refl) as (Hcur & Hentries & n & Hpending & Hn).
  assert (Hid1 : entry_id (navigation_currentEntry (host_of (platform s1)))
                 = entry_id (activeHistoryEntry (manager s1))).
  { cbn [host_of navigation_currentEntry]. now rewrite Hcur, Ha. }
  destruct (runs_cancel_spec serialize merge (host_of (platform s1)) e r
              (set_finish_cancel (platform_counter (platform s))
                 (set_commitUrl (Some (CommitEvent (platform_counter (platform s)))) t))
              (manager s1) He) as [b Hb].
  rewrite (cancel_same_id serialize merge _ _ b _ Hid1) in Hb.
  exists s1. eexists. exists o, io. split; [exact Hstep |].
  split.
  - unfold system_step. rewrite Hlook, Hb.
    cbn [set_finish_cancel nav_cancel call_optional react_all react app]. reflexivity.
  - unfold native_reject, set_platform.
    cbn [platform platform_currentEntry platform_entries platform_pending manager].
    rewrite Hpending. cbn [drop_pending]. rewrite Hn, Nat.eqb_refl.
    now repeat split.
Qed.

(** X15.  A navigation issued by [cancel] is inert on its way back: the
    navigate event that carries its metadata is not claimed and writes no
    transition, and the entry change that follows calls no listener. *)
Theorem rollback_navigation_is_not_claimed h t (b : bool) this
    (c : @Effect JsValue) (i : JsInfo) (event : NavigateEvent)
    (store : gmap TransitionRef (@Navigation UrlTree JsValue)) this0 h' :
  In c (snd (cancel serialize merge h t b this)) ->
  call_info c = Some i ->
  event_info event = i ->
  exists this1,
    handleNavigate event store this0 = (this1, store, [], Normal) /\
    snd (handleCurrentEntryChange h' this1) = [].
Proof.
  intros Hin Hc Hev.
  rewrite (cancel_call_info serialize merge h t b this c i Hin Hc) in Hev.
  exists (set_info (InfoString "rollback") this0).
  unfold handleNavigate, handleCurrentEntryChange. rewrite Hev.
  cbn [info_prop truthy]. rewrite andb_false_r. now split.
Qed.

(** *** The current URL tree and the router state *)

Lemma feed_memento_or_snapshot h (i : Input) w w' :
  feed serialize merge h i w = Some w' ->
  stateMemento (fst w') = stateMemento (fst w) \/
  stateMemento (fst w') = createStateMemento (fst w).
Proof.
  intros H. destruct (is_navigation_start i) eqn:Hs.
  - right. destruct i as [[] r | |]; try discriminate. cbn [feed] in H.
    destruct (snd w !! r); [| discriminate]. cbn [handleRouterEvent] in H.
    now inversion H.
  - left. eapply feed_keeps_memento; eassumption.
Qed.

Lemma feed_all_keeps_initial_state (E : UrlTree) (S0 : RouterState)
    (l : list (@Host JsValue * Input)) w w' :
  feed_all serialize merge l w = Some w' ->
  currentUrlTree (fst w) = E -> routerState (fst w) = S0 ->
  memento_currentUrlTree (stateMemento (fst w)) = E ->
  memento_routerState (stateMemento (fst w)) = S0 ->
  currentUrlTree (fst w') = E /\ routerState (fst w') = S0.
Proof.
  revert w. induction l as [| [h i] l IH]; intros w H Hc Hr Hmc Hmr; cbn [feed_all] in H.
  - inversion H; subst. now split.
  - destruct (feed serialize merge h i w) as [w1 |] eqn:Hf; [| discriminate].
    assert (Hc1 : currentUrlTree (fst w1) = E /\ routerState (fst w1) = S0).
    { destruct (feed_state_or_memento h i w w1 Hf) as [[H1 H2] | (_ & H1 & H2)];
        split; congruence. }
    destruct Hc1 as [Hc1 Hr1].
    apply (IH w1 H Hc1 Hr1).
    + destruct (feed_memento_or_snapshot h i w w1 Hf) as [-> | ->]; [exact Hmc | exact Hc].
    + destruct (feed_memento_or_snapshot h i w w1 Hf) as [-> | ->]; [exact Hmr | exact Hr].
Qed.

Section Reachable.

Variable emptyUrlTree : UrlTree.
Variable createEmptyState : UrlTree -> RouterState.

(** X16.  [currentUrlTree] and [routerState] are written by the field
    initialisers and by [resetInternalState] only, so after any sequence of
    router events, writes to transitions and native events on a constructed
    manager, [getCurrentUrlTree()] is still the empty tree of construction
    and [getRouterState()] the empty state made from it. *)
Theorem current_url_and_router_state_stay_initial (config : option RouterConfig)
    h0 this (calls : list (@Effect JsValue))
    (store : gmap TransitionRef (@Navigation UrlTree JsValue))
    (l : list (@Host JsValue * Input)) w' :
  constructor emptyUrlTree createEmptyState config h0 = Built this calls ->
  feed_all serialize merge l (this, store) = Some w' ->
  getCurrentUrlTree (fst w') = emptyUrlTree /\
  getRouterState (fst w') = createEmptyState emptyUrlTree.
Proof.
  unfold constructor. destruct (negb _); [discriminate |].
  intros H Hrun. inversion H; subst this calls; clear H.
  now apply (feed_all_keeps_initial_state emptyUrlTree (createEmptyState emptyUrlTree)
               l _ w' Hrun).
Qed.

End Reachable.

End Further.

(** ** The further properties on concrete data *)

Lemma cancel_after_navigation_end_witness :
  runs_cancel NavigationError = true /\
  exists this1,
    handleRouterEvent ex_serialize ex_merge (host_at entry_b) NavigationEnd 1
      transition_a_b manager_a = Some (this1, []) /\
    activeHistoryEntry this1 = entry_b /\
    handleRouterEvent ex_serialize ex_merge (host_at entry_b) NavigationError 1
      transition_a_b this1 = Some (this1, [Call (RejectHandler 0)]).
Proof.
  split; [reflexivity |].
  exact (cancel_after_navigation_end ex_serialize ex_merge (host_at entry_b)
           NavigationError 1 1 transition_a_b transition_a_b manager_a eq_refl).
Defined.

Lemma router_state_and_url_move_together_witness :
  feed ex_serialize ex_merge (host_at entry_a_replaced) (RouterInput NavigationError 1)
    world_b = Some world_b_cancelled /\
  routerState (fst world_b_cancelled) = "state of /a" /\
  currentUrlTree (fst world_b_cancelled) = "/a".
Proof.
  assert (H : feed ex_serialize ex_merge (host_at entry_a_replaced)
                (RouterInput NavigationError 1) world_b = Some world_b_cancelled)
    by (vm_compute; reflexivity).
  split; [exact H |].
  destruct (router_state_and_url_move_together ex_serialize ex_merge _ _ _ _ H)
    as [[H1 _] | (_ & H1 & H2)].
  - cbn in H1. discriminate H1.
  - split; [exact H1 | exact H2].
Defined.

Lemma active_entry_changes_only_on_end_or_rollback_witness :
  feed ex_serialize ex_merge (host_at entry_b) (RouterInput NavigationEnd 1) world_b
    = Some world_b_ended /\
  activeHistoryEntry (fst world_b_ended) <> activeHistoryEntry (fst world_b) /\
  activeHistoryEntry (fst world_b_ended) = entry_b.
Proof.
  assert (H : feed ex_serialize ex_merge (host_at entry_b) (RouterInput NavigationEnd 1)
                world_b = Some world_b_ended) by (vm_compute; reflexivity).
  assert (Hne : activeHistoryEntry (fst world_b_ended) <> activeHistoryEntry (fst world_b))
    by discriminate.
  split; [exact H |]. split; [exact Hne |].
  exact (proj1 (active_entry_changes_only_on_end_or_rollback ex_serialize ex_merge
                  _ _ _ _ H Hne)).
Defined.

Lemma info_is_last_navigate_metadata_witness :
  feed_all ex_serialize ex_merge inputs_until_activation world_started
    = Some world_activating /\
  info (fst world_activating) = info_for 2.
Proof.
  assert (H : feed_all ex_serialize ex_merge inputs_until_activation world_started
              = Some world_activating) by (vm_compute; reflexivity).
  split; [exact H |].
  exact (info_is_last_navigate_metadata ex_serialize ex_merge _ _ _ H).
Defined.

Lemma events_keep_subscribers_and_configuration_witness :
  feed_all ex_serialize ex_merge inputs_until_activation world_started
    = Some world_activating /\
  nonRouterCurrentEntryChangeSubject (fst world_activating) = [7; 8] /\
  urlUpdateStrategy (fst world_activating) = "deferred" /\
  canceledNavigationResolution (fst world_activating) = "computed".
Proof.
  assert (H : feed_all ex_serialize ex_merge inputs_until_activation world_started
              = Some world_activating) by (vm_compute; reflexivity).
  split; [exact H |].
  exact (events_keep_subscribers_and_configuration ex_serialize ex_merge _ _ _ H).
Defined.

Lemma navigate_event_claimed_iff_witness :
  handleNavigate {| event_id := 0; event_info := info_for 2; canIntercept := true |}
    (snd world_started) (fst world_started)
    = (set_info (info_for 2) (fst world_started),
       <[2 := set_commitUrl (Some (CommitEvent 0)) transition_replace]> (snd world_started),
       [Event_intercept 0
          {| io_focusReset := Some Manual; io_scroll := None;
             io_commit := Some AfterTransition;
             io_handler := BindFinishCancel (Some 2) |}],
       Normal) /\
  handleNavigate {| event_id := 3; event_info := info_without_transition;
                    canIntercept := true |}
    (snd world_started) (fst world_started)
    = (set_info info_without_transition (fst world_started), snd world_started, [],
       Throw "TypeError") /\
  Throw "TypeError" <> Normal /\
  truthy (info_prop deferredCommit info_without_transition) = true.
Proof.
  assert (H1 : handleNavigate
                 {| event_id := 0; event_info := info_for 2; canIntercept := true |}
                 (snd world_started) (fst world_started)
               = (set_info (info_for 2) (fst world_started),
                  <[2 := set_commitUrl (Some (CommitEvent 0)) transition_replace]>
                    (snd world_started),
                  [Event_intercept 0
                     {| io_focusReset := Some Manual; io_scroll := None;
                        io_commit := Some AfterTransition;
                        io_handler := BindFinishCancel (Some 2) |}],
                  Normal)) by (vm_compute; reflexivity).
  assert (H2 : handleNavigate
                 {| event_id := 3; event_info := info_without_transition;
                    canIntercept := true |}
                 (snd world_started) (fst world_started)
               = (set_info info_without_transition (fst world_started),
                  snd world_started, [], Throw "TypeError")) by reflexivity.
  assert (H3 : Throw "TypeError" <> Normal) by discriminate.
  split; [exact H1 |]. split; [exact H2 |]. split; [exact H3 |].
  exact (proj1 (proj2 (proj2 (proj2 (proj2
           (navigate_event_claimed_iff _ _ _ _ _ _ _ H2))) H3))).
Defined.

Lemma navigate_event_writes_only_commitUrl_witness :
  handleNavigate {| event_id := 0; event_info := info_for 2; canIntercept := true |}
    (snd world_started) (fst world_started)
    = (set_info (info_for 2) (fst world_started),
       <[2 := set_commitUrl (Some (CommitEvent 0)) transition_replace]> (snd world_started),
       [Event_intercept 0
          {| io_focusReset := Some Manual; io_scroll := None;
             io_commit := Some AfterTransition;
             io_handler := BindFinishCancel (Some 2) |}],
       Normal) /\
  info_prop transition (info_for 2) <> Some 5 /\
  (<[2 := set_commitUrl (Some (CommitEvent 0)) transition_replace]> (snd world_started))
    !! 5 = snd world_started !! 5.
Proof.
  assert (H1 : handleNavigate
                 {| event_id := 0; event_info := info_for 2; canIntercept := true |}
                 (snd world_started) (fst world_started)
               = (set_info (info_for 2) (fst world_started),
                  <[2 := set_commitUrl (Some (CommitEvent 0)) transition_replace]>
                    (snd world_started),
                  [Event_intercept 0
                     {| io_focusReset := Some Manual; io_scroll := None;
                        io_commit := Some AfterTransition;
                        io_handler := BindFinishCancel (Some 2) |}],
                  Normal)) by (vm_compute; reflexivity).
  assert (H2 : info_prop transition (info_for 2) <> Some 5) by discriminate.
  split; [exact H1 |]. split; [exact H2 |].
  exact (proj1 (navigate_event_writes_only_commitUrl _ _ _ _ _ _ _ H1) 5 H2).
Defined.

Lemma listeners_called_in_subscription_order_witness :
  info manager_a = InfoUndefined /\
  snd (handleCurrentEntryChange (host_at entry_b) (registerAll [9; 7] manager_a))
    = [Listener 7 "/b" None; Listener 8 "/b" None;
       Listener 9 "/b" None; Listener 7 "/b" None].
Proof.
  split; [reflexivity |].
  exact (proj1 (listeners_called_in_subscription_order (host_at entry_b) manager_a
                  [9; 7] eq_refl)).
Defined.

Lemma external_navigation_notifies_listeners_witness :
  event_info {| event_id := 4; event_info := InfoUndefined; canIntercept := true |}
    = InfoUndefined /\
  exists this1,
    handleNavigate {| event_id := 4; event_info := InfoUndefined; canIntercept := true |}
      (snd world_activating) (fst world_activating)
      = (this1, snd world_activating, [], Normal) /\
    handleCurrentEntryChange (host_at entry_b) this1
      = (this1, [Listener 7 "/b" None; Listener 8 "/b" None]).
Proof.
  split; [reflexivity |].
  destruct (external_navigation_notifies_listeners
              {| event_id := 4; event_info := InfoUndefined; canIntercept := true |}
              (snd world_activating) (fst world_activating) (host_at entry_b) eq_refl)
    as (this1 & H1 & H2 & _).
  exists this1. split; [exact H1 | exact H2].
Defined.

Lemma resetInternalState_idempotent_witness :
  finalUrl transition_a_b = Some "/b" /\
  resetInternalState ex_merge transition_a_b
    (resetInternalState ex_merge transition_a_b manager_a)
    = resetInternalState ex_merge transition_a_b manager_a.
Proof.
  split; [reflexivity |].
  exact (resetInternalState_idempotent ex_merge transition_a_b manager_a "/b" eq_refl).
Defined.

Lemma constructed_manager_is_at_rest_witness :
  constructor "" (fun u : string => u) (Some config_computed) (host_at entry_a)
    = Built manager_built
        [Navigation_addEventListener "navigate";
         Navigation_addEventListener "currententrychange"] /\
  urlUpdateStrategy manager_built = "deferred" /\
  stateMemento manager_built = createStateMemento manager_built /\
  cancel ex_serialize ex_merge (host_at entry_a) transition_a_b true manager_built
    = (manager_built, [Call (RejectHandler 0)]).
Proof.
  assert (H : constructor "" (fun u : string => u) (Some config_computed)
                (host_at entry_a)
              = Built manager_built
                  [Navigation_addEventListener "navigate";
                   Navigation_addEventListener "currententrychange"]) by reflexivity.
  split; [exact H |].
  destruct (constructed_manager_is_at_rest ex_serialize ex_merge "" (fun u : string => u)
              (Some config_computed) (host_at entry_a) manager_built _ H)
    as (_ & Hu & _ & _ & _ & Hm & _ & _ & _ & Hc & _).
  split; [exact Hu |]. split; [exact Hm |]. exact (Hc transition_a_b true).
Defined.

Lemma eager_commit_at_routes_recognized_witness :
  urlUpdateStrategy (manager system_eager) <> "deferred" /\
  transitions system_eager !! 1 = Some transition_replace /\
  skipLocationChange (extras transition_replace) = false /\
  finalUrl transition_replace = Some "/a" /\
  nav_commitUrl transition_replace = None /\
  exists s1 o io,
    system_step ex_serialize ex_merge RoutesRecognized 1 system_eager
      = Some (s1, [Navigation_navigate "/a" o; Event_intercept 0 io]) /\
    opt_history o = Replace /\
    io_commit io = None /\
    visibleUrl (platform s1) = "/a" /\
    system_step ex_serialize ex_merge BeforeActivateRoutes 1 s1 = Some (s1, []).
Proof.
  assert (H1 : urlUpdateStrategy (manager system_eager) <> "deferred") by discriminate.
  assert (H2 : transitions system_eager !! 1 = Some transition_replace)
    by (vm_compute; reflexivity).
  assert (H3 : skipLocationChange (extras transition_replace) = false) by reflexivity.
  assert (H4 : finalUrl transition_replace = Some "/a") by reflexivity.
  assert (H5 : nav_commitUrl transition_replace = None) by reflexivity.
  repeat (split; [assumption |]).
  destruct (eager_commit_at_routes_recognized ex_serialize ex_merge system_eager 1
              transition_replace "/a" H1 H2 H3 H4)
    as (s1 & o & io & Hstep & _ & Hcommit & Hurl & _ & _ & Hbar).
  exists s1, o, io. split; [exact Hstep |].
  split.
  - assert (Hs : system_step ex_serialize ex_merge RoutesRecognized 1 system_eager
                 = Some (s1, [Navigation_navigate "/a" o; Event_intercept 0 io]))
      by exact Hstep.
    vm_compute in Hs. inversion Hs. reflexivity.
  - split; [exact Hcommit |]. split; [exact Hurl | exact (Hbar H5)].
Defined.

Lemma cancel_before_commit_changes_nothing_witness :
  urlUpdateStrategy (manager system_a) = "deferred" /\
  transitions system_a !! 1 = Some transition_a_b /\
  skipLocationChange (extras transition_a_b) = false /\
  finalUrl transition_a_b = Some "/b" /\
  runs_cancel (NavigationCancel (Some GuardRejected)) = true /\
  entry_id (platform_currentEntry (platform system_a))
    = entry_id (activeHistoryEntry (manager system_a)) /\
  exists s1 s2 o io,
    system_step ex_serialize ex_merge RoutesRecognized 1 system_a
      = Some (s1, [Navigation_navigate "/b" o; Event_intercept 0 io]) /\
    system_step ex_serialize ex_merge (NavigationCancel (Some GuardRejected)) 1 s1
      = Some (s2, [Call (RejectHandler 0)]) /\
    platform_currentEntry (platform s2) = entry_a /\
    platform_entries (platform s2) = [entry_a] /\
    platform_pending (platform s2) = [] /\
    getCurrentUrlTree (manager s2) = "/a".
Proof.
  assert (H1 : urlUpdateStrategy (manager system_a) = "deferred") by reflexivity.
  assert (H2 : transitions system_a !! 1 = Some transition_a_b)
    by (vm_compute; reflexivity).
  assert (H3 : skipLocationChange (extras transition_a_b) = false) by reflexivity.
  assert (H4 : finalUrl transition_a_b = Some "/b") by reflexivity.
  assert (H5 : runs_cancel (NavigationCancel (Some GuardRejected)) = true) by reflexivity.
  assert (H6 : entry_id (platform_currentEntry (platform system_a))
               = entry_id (activeHistoryEntry (manager system_a))) by reflexivity.
  repeat (split; [assumption |]).
  destruct (cancel_before_commit_changes_nothing ex_serialize ex_merge system_a 1
              transition_a_b "/b" (NavigationCancel (Some GuardRejected))
              H1 H2 H3 H4 H5 H6)
    as (s1 & s2 & o & io & Hrr & Hc & Hcur & Hent & Hpend & Hm & _).
  exists s1, s2, o, io.
  split; [exact Hrr |]. split; [exact Hc |]. split; [exact Hcur |].
  split; [exact Hent |]. split; [exact Hpend |].
  exact (f_equal memento_currentUrlTree Hm).
Defined.

Lemma rollback_navigation_is_not_claimed_witness :
  In (Navigation_traverseTo "slot-1" (InfoString "rollback"))
     (snd (cancel ex_serialize ex_merge (host_at entry_b) transition_a_b false manager_a)) /\
  @call_info string (Navigation_traverseTo "slot-1" (InfoString "rollback"))
    = Some (InfoString "rollback") /\
  exists this1,
    handleNavigate {| event_id := 6; event_info := InfoString "rollback";
                      canIntercept := true |}
      (snd world_b) (fst world_b) = (this1, snd world_b, [], Normal) /\
    snd (handleCurrentEntryChange (host_at entry_a) this1) = [].
Proof.
  assert (H1 : In (Navigation_traverseTo "slot-1" (InfoString "rollback"))
                 (snd (cancel ex_serialize ex_merge (host_at entry_b) transition_a_b
                         false manager_a))) by (right; left; reflexivity).
  split; [exact H1 |]. split; [reflexivity |].
  exact (rollback_navigation_is_not_claimed ex_serialize ex_merge (host_at entry_b)
           transition_a_b false manager_a _ (InfoString "rollback")
           {| event_id := 6; event_info := InfoString "rollback"; canIntercept := true |}
           (snd world_b) (fst world_b) (host_at entry_a) H1 eq_refl eq_refl).
Defined.

Lemma current_url_and_router_state_stay_initial_witness :
  constructor "" (fun u : string => u) (Some config_computed) (host_at entry_a)
    = Built manager_built
        [Navigation_addEventListener "navigate";
         Navigation_addEventListener "currententrychange"] /\
  (exists w',
     feed_all ex_serialize ex_merge inputs_after_construction
       (manager_built, {[ 1 := transition_a_b ]}) = Some w' /\
     getRawUrlTree (fst w') = "" /\
     getCurrentUrlTree (fst w') = "" /\
     getRouterState (fst w') = "").
Proof.
  assert (H : constructor "" (fun u : string => u) (Some config_computed)
                (host_at entry_a)
              = Built manager_built
                  [Navigation_addEventListener "navigate";
                   Navigation_addEventListener "currententrychange"]) by reflexivity.
  split; [exact H |].
  destruct (feed_all ex_serialize ex_merge inputs_after_construction
              (manager_built, {[ 1 := transition_a_b ]})) as [w' |] eqn:Hrun.
  - exists w'. split; [reflexivity |].
    destruct (current_url_and_router_state_stay_initial ex_serialize ex_merge ""
                (fun u : string => u) (Some config_computed) (host_at entry_a)
                manager_built _ _ inputs_after_construction w' H Hrun) as [Hc Hr].
    split; [| split; [exact Hc | exact Hr]].
    vm_compute in Hrun. inversion Hrun. reflexivity.
  - vm_compute in Hrun. discriminate Hrun.
Defined.
